(** * libbitcoin-node: the full node coordinator, checked against its code

    A shallow embedding of [full_node] (start, run, the two reorganization
    handlers, stop and close), of the console [executor] run sequence and of
    the network selection done by [bc::main] / [configuration::init].

    Conventions.
    - [size_t] values are [N]; every arithmetic step the source performs on
      them is written with its 64-bit wrap-around ([SizeT]).
    - The node is a record; member functions are actions of a small
      state-and-trace monad: an action maps a state to a result, the next
      state and the list of externally visible calls it made, in order.
    - The blockchain and the network stack are collaborators that live in
      other libraries.  Their answers are read from oracle records stored in
      the node; every call made to them is recorded in the trace. *)

From Stdlib Require Import List NArith Bool String Lia.
From Equations Require Import Equations.
Import ListNotations.

Local Open Scope string_scope.
Local Open Scope list_scope.
Local Open Scope N_scope.

(** ** Machine arithmetic on [size_t] *)

Module SizeT.

Definition modulus : N := 2 ^ 64.

Definition wrap (n : N) : N := n mod modulus.

(** [a + b] on size_t. *)
Definition add (a b : N) : N := wrap (a + b).

(** [++h] / [h++]: the incremented value. *)
Definition incr (h : N) : N := wrap (h + 1).

(** [--h] / [h--]: the decremented value; [0] wraps to [2^64 - 1]. *)
Definition decr (h : N) : N := wrap (h + (modulus - 1)).

End SizeT.

(** ** Data *)

(** A 32-byte digest, read as a 256-bit number. *)
Definition hash_digest : Type := N.

(** [config::checkpoint]: a block position. *)
Module checkpoint.
Record t : Type := make {
  hash : hash_digest;
  height : N
}.
End checkpoint.

Definition checkpoint : Type := checkpoint.t.

(** Only the hash of a header is observed by the node. *)
Record header : Type := Header {
  header_hash : hash_digest
}.

Record block : Type := Block {
  block_header : header
}.

Definition block_hash (b : block) : hash_digest := header_hash (block_header b).

(** Error codes.  [success] is the only code that tests false in [if (ec)]. *)
Inductive code : Type :=
| success
| service_stopped
| operation_failed
| other_error (value : N).

Definition is_error (ec : code) : bool :=
  match ec with
  | success => false
  | _ => true
  end.

Definition code_eqb (a b : code) : bool :=
  match a, b with
  | success, success => true
  | service_stopped, service_stopped => true
  | operation_failed, operation_failed => true
  | other_error x, other_error y => N.eqb x y
  | _, _ => false
  end.

(** ** The state-and-trace monad *)

Module Effect.
Section Defs.
Context {St Ev : Type}.

Definition M (A : Type) : Type := St -> A * St * list Ev.

Definition ret {A} (a : A) : M A := fun s => (a, s, []).

Definition bind {A B} (m : M A) (k : A -> M B) : M B :=
  fun s =>
    let '(a, s1, t1) := m s in
    let '(b, s2, t2) := k a s1 in
    (b, s2, t1 ++ t2).

Definition emit (e : Ev) : M unit := fun s => (tt, s, [e]).

Definition gets {A} (f : St -> A) : M A := fun s => (f s, s, []).

Definition modify (f : St -> St) : M unit := fun s => (tt, f s, []).

Definition when (b : bool) (m : M unit) : M unit :=
  if b then m else ret tt.

(** Projections of a run. *)
Definition result {A} (r : A * St * list Ev) : A := fst (fst r).
Definition final {A} (r : A * St * list Ev) : St := snd (fst r).
Definition trace {A} (r : A * St * list Ev) : list Ev := snd r.
End Defs.
End Effect.

Import Effect.

Notation "x <- m ;; k" := (bind m (fun x => k))
  (at level 61, m at next level, right associativity).
Notation "m ;;; k" := (bind m (fun _ => k))
  (at level 61, right associativity).

(** ** Reservations *)

(** Modelled from the spec: the [reservations] class (reservations.cpp is not
    among the sources).  Section 4.1: a double-ended, ordered container of
    (hash, height) entries; [push_front] inserts at the high-priority end,
    [push_back] at the low-priority end, [pop_back] removes the entry at
    [height] iff it is at the tail position and its hash matches the header;
    [size] counts the entries.  The head of the list is the front. *)
Module reservations.

Definition entry : Type := hash_digest * N.

Definition t : Type := list entry.

Definition entry_eqb (a b : entry) : bool :=
  N.eqb (fst a) (fst b) && N.eqb (snd a) (snd b).

Definition push_front (h : hash_digest) (height : N) (q : t) : t :=
  (h, height) :: q.

Definition push_back (hd : header) (height : N) (q : t) : t :=
  q ++ [(header_hash hd, height)].

Definition pop_back (hd : header) (height : N) (q : t) : t :=
  match rev q with
  | e :: before =>
      if entry_eqb e (header_hash hd, height) then rev before else q
  | [] => q
  end.

Definition size (q : t) : N := N.of_nat (List.length q).

(** The entry at the low-priority end. *)
Definition tail (q : t) : option entry :=
  match rev q with
  | e :: _ => Some e
  | [] => None
  end.

(** The entry at the high-priority end. *)
Definition front (q : t) : option entry :=
  match q with
  | e :: _ => Some e
  | [] => None
  end.

End reservations.

(** ** The node and its collaborators *)

Inductive level : Type := debug | info | warning | error | fatal.

Inductive log_arg : Type :=
| no_arg
| arg_code (ec : code)
| arg_number (n : N)
| arg_hash (h : hash_digest)
| arg_text (s : string).

(** Everything the node does that is visible from outside, in call order. *)
Inductive event : Type :=
| log (l : level) (text : string) (arg : log_arg)
| handler_invoked (ec : code)
| chain_start_called
| chain_stop_called
| chain_close_called
| chain_get_top_called (candidate found : bool)
| chain_top_valid_candidate_state_called
| chain_get_downloadable_called (height : N) (found : bool)
| chain_subscribe_headers_called
| chain_subscribe_blocks_called
| p2p_start_called
| p2p_run_called
| p2p_stop_called
| p2p_close_called
| reservations_pop_back_called (hd : header) (height : N)
| reservations_push_back_called (hd : header) (height : N)
| reservations_push_front_called (h : hash_digest) (height : N).

(** The answers of the blockchain (libbitcoin-blockchain, not part of this
    repository): what [start], [stop], [close], [get_top],
    [top_valid_candidate_state()->height()] and [get_downloadable] return. *)
Record block_chain : Type := BlockChain {
  chain_start_result : bool;
  chain_stop_result : bool;
  chain_close_result : bool;
  top_confirmed : option checkpoint;
  top_candidate : option checkpoint;
  top_valid_candidate_height : N;
  downloadable : N -> option hash_digest
}.

(** The answers of the network base class [p2p] (libbitcoin-network): the
    code with which [start] and [run] complete and the results of [stop] and
    [close]. *)
Record network : Type := Network {
  p2p_start_code : code;
  p2p_run_code : code;
  p2p_stop_result : bool;
  p2p_close_result : bool
}.

(** [full_node].  [stopped_], [top_block_] and [top_header_] are the members
    of the base class [p2p] that the node reads and writes through
    [stopped()], [set_top_block] and [set_top_header]. *)
Record full_node : Type := FullNode {
  stopped_ : bool;
  top_block_ : checkpoint;
  top_header_ : checkpoint;
  reservations_ : reservations.t;
  chain_ : block_chain;
  network_ : network
}.

Definition with_stopped (b : bool) (n : full_node) : full_node :=
  FullNode b (top_block_ n) (top_header_ n) (reservations_ n)
    (chain_ n) (network_ n).

Definition with_top_block (c : checkpoint) (n : full_node) : full_node :=
  FullNode (stopped_ n) c (top_header_ n) (reservations_ n)
    (chain_ n) (network_ n).

Definition with_top_header (c : checkpoint) (n : full_node) : full_node :=
  FullNode (stopped_ n) (top_block_ n) c (reservations_ n)
    (chain_ n) (network_ n).

Definition with_reservations (q : reservations.t) (n : full_node) : full_node :=
  FullNode (stopped_ n) (top_block_ n) (top_header_ n) q
    (chain_ n) (network_ n).

Definition action : Type -> Type := @M full_node event.

(** A [result_handler] is opaque to the node: invoking it is an event. *)
Definition handler (ec : code) : action unit := emit (handler_invoked ec).

Definition LOG (l : level) (text : string) (arg : log_arg) : action unit :=
  emit (log l text arg).

(** *** Calls into the base class [p2p] *)

(** Modelled from the spec: section 4.3, the network facade.  [start]
    completes on the calling thread and [run] hands the handler to the
    network, which reports its completion code to it; [stop] leaves the node
    stopped.  [stopped], [set_top_block] and [set_top_header] read and write
    the cached members. *)
Module p2p.

Definition stopped : action bool := gets stopped_.

Definition set_top_block (c : checkpoint) : action unit :=
  modify (with_top_block c).

Definition set_top_header (c : checkpoint) : action unit :=
  modify (with_top_header c).

Definition start : action unit :=
  emit p2p_start_called ;;;
  modify (with_stopped false) ;;;
  ec <- gets (fun n => p2p_start_code (network_ n)) ;;
  handler ec.

Definition run : action unit :=
  emit p2p_run_called ;;;
  ec <- gets (fun n => p2p_run_code (network_ n)) ;;
  handler ec.

Definition stop : action bool :=
  emit p2p_stop_called ;;;
  modify (with_stopped true) ;;;
  gets (fun n => p2p_stop_result (network_ n)).

Definition close : action bool :=
  emit p2p_close_called ;;;
  gets (fun n => p2p_close_result (network_ n)).

End p2p.

(** *** Calls into [chain_] *)

Module chain.

Definition start : action bool :=
  emit chain_start_called ;;;
  gets (fun n => chain_start_result (chain_ n)).

Definition stop : action bool :=
  emit chain_stop_called ;;;
  gets (fun n => chain_stop_result (chain_ n)).

Definition close : action bool :=
  emit chain_close_called ;;;
  gets (fun n => chain_close_result (chain_ n)).

(** [get_top(out, candidate)]: [None] when the call returns false. *)
Definition get_top (candidate : bool) : action (option checkpoint) :=
  top <- gets (fun n => if candidate then top_candidate (chain_ n)
                        else top_confirmed (chain_ n)) ;;
  emit (chain_get_top_called candidate
          (match top with Some _ => true | None => false end)) ;;;
  ret top.

(** [top_valid_candidate_state()->height()]. *)
Definition top_valid_candidate_state_height : action N :=
  emit chain_top_valid_candidate_state_called ;;;
  gets (fun n => top_valid_candidate_height (chain_ n)).

(** [get_downloadable(out_hash, height)]: [Some h] when the call returns
    true and has written [h]; on [None] the out parameter is untouched. *)
Definition get_downloadable (height : N) : action (option hash_digest) :=
  found <- gets (fun n => downloadable (chain_ n) height) ;;
  emit (chain_get_downloadable_called height
          (match found with Some _ => true | None => false end)) ;;;
  ret found.

Definition subscribe_headers : action unit :=
  emit chain_subscribe_headers_called.

Definition subscribe_blocks : action unit :=
  emit chain_subscribe_blocks_called.

End chain.

(** *** Calls into [reservations_] *)

Definition reservations_pop_back (hd : header) (height : N) : action unit :=
  emit (reservations_pop_back_called hd height) ;;;
  modify (fun n =>
    with_reservations (reservations.pop_back hd height (reservations_ n)) n).

Definition reservations_push_back (hd : header) (height : N) : action unit :=
  emit (reservations_push_back_called hd height) ;;;
  modify (fun n =>
    with_reservations (reservations.push_back hd height (reservations_ n)) n).

Definition reservations_push_front (h : hash_digest) (height : N)
  : action unit :=
  emit (reservations_push_front_called h height) ;;;
  modify (fun n =>
    with_reservations (reservations.push_front h height (reservations_ n)) n).

Definition reservations_size : action N :=
  gets (fun n => reservations.size (reservations_ n)).

(** ** [full_node] member functions *)

(** *** Shutdown *)

(** [full_node::stop]. *)
Definition stop : action bool :=
  p2p_stop <- p2p.stop ;;
  chain_stop <- chain.stop ;;
  when (negb p2p_stop) (LOG error "Failed to stop network." no_arg) ;;;
  when (negb chain_stop) (LOG error "Failed to stop blockchain." no_arg) ;;;
  ret (p2p_stop && chain_stop).

(** [full_node::close]. *)
Definition close : action bool :=
  stopped_ok <- stop ;;
  if negb stopped_ok then ret false
  else
    p2p_close <- p2p.close ;;
    chain_close <- chain.close ;;
    when (negb p2p_close) (LOG error "Failed to close network." no_arg) ;;;
    when (negb chain_close) (LOG error "Failed to close blockchain." no_arg) ;;;
    ret (p2p_close && chain_close).

(** *** Start *)

(** [full_node::start]. *)
Definition start : action unit :=
  is_stopped <- p2p.stopped ;;
  if negb is_stopped then handler operation_failed
  else
    started <- chain.start ;;
    if negb started then
      LOG error "Failure starting blockchain." no_arg ;;;
      handler operation_failed
    else p2p.start.

(** *** Run sequence *)

Definition inspect {A : Type} (a : A) : {b : A | a = b} := exist _ a eq_refl.

(** The re-seeding loop of [handle_running]:
<<
    for (auto height = candidate.height(); height > top_valid; --height)
        if (chain_.get_downloadable(hash, height) || height == start_height)
            reservations_.push_front(std::move(hash), height);
>>
    [hash] is the local declared before the loop; a failed
    [get_downloadable] leaves it as it was. *)
Equations? seed_reservations (top_valid start_height height : N)
    (hash : hash_digest) : action unit
  by wf (N.to_nat (height - top_valid)) lt :=
seed_reservations top_valid start_height height hash
    with inspect (top_valid <? height) => {
  | exist _ false _ := ret tt
  | exist _ true Hgt :=
      found <- chain.get_downloadable height ;;
      let hash' := match found with Some h => h | None => hash end in
      when (match found with Some _ => true | None => false end
            || (height =? start_height))
        (reservations_push_front hash' height) ;;;
      seed_reservations top_valid start_height (SizeT.decr height) hash' }.
Proof.
  apply N.ltb_lt in Hgt.
  assert (SizeT.decr height < height); [| lia].
  unfold SizeT.decr, SizeT.wrap, SizeT.modulus.
  destruct (N.lt_ge_cases height (2 ^ 64)) as [Hlt | Hge].
  - replace (height + (2 ^ 64 - 1)) with ((height - 1) + 1 * 2 ^ 64) by lia.
    rewrite N.Div0.mod_add, N.mod_small by lia. lia.
  - pose proof (N.mod_upper_bound (height + (2 ^ 64 - 1)) (2 ^ 64)). lia.
Qed.

(** [full_node::handle_running].  [uninitialized] is the indeterminate
    content of the local [hash_digest hash] before the loop. *)
Definition handle_running (uninitialized : hash_digest) (ec : code)
  : action unit :=
  is_stopped <- p2p.stopped ;;
  if is_stopped then handler service_stopped
  else if is_error ec then
    LOG error "Failure synchronizing blocks: " (arg_code ec) ;;;
    handler ec
  else
    confirmed <- chain.get_top false ;;
    match confirmed with
    | None =>
        LOG error "The block chain is corrupt." no_arg ;;;
        handler operation_failed
    | Some confirmed =>
        p2p.set_top_block confirmed ;;;
        LOG info "Top confirmed block height is ("
          (arg_number (checkpoint.height confirmed)) ;;;
        candidate <- chain.get_top true ;;
        match candidate with
        | None =>
            LOG error "The candidate chain is corrupt." no_arg ;;;
            handler operation_failed
        | Some candidate =>
            p2p.set_top_header candidate ;;;
            LOG info "Top candidate block height is ("
              (arg_number (checkpoint.height candidate)) ;;;
            top_valid <- chain.top_valid_candidate_state_height ;;
            let start_height := SizeT.add top_valid 1 in
            LOG info "Top valid candidate block height ("
              (arg_number top_valid) ;;;
            seed_reservations top_valid start_height
              (checkpoint.height candidate) uninitialized ;;;
            pending <- reservations_size ;;
            LOG info "Pending block downloads (" (arg_number pending) ;;;
            chain.subscribe_headers ;;;
            chain.subscribe_blocks ;;;
            p2p.run
        end
    end.

(** [full_node::run]. *)
Definition run (uninitialized : hash_digest) : action unit :=
  is_stopped <- p2p.stopped ;;
  if is_stopped then handler service_stopped
  else handle_running uninitialized success.

(** *** Reorganization handlers *)

(** The pop loop of [handle_reindexed]: for each header of the reversed
    [outgoing], [reservations_.pop_back(header, height--)].  The argument is
    the already reversed list; the final [height] is returned. *)
Fixpoint pop_outgoing (reversed : list header) (height : N) : action N :=
  match reversed with
  | [] => ret height
  | hd :: rest =>
      reservations_pop_back hd height ;;;
      pop_outgoing rest (SizeT.decr height)
  end.

(** The push loop of [handle_reindexed]: for each header of [incoming],
    [reservations_.push_back(header, ++height)].  The final [height] is
    returned. *)
Fixpoint push_incoming (incoming : list header) (height : N) : action N :=
  match incoming with
  | [] => ret height
  | hd :: rest =>
      reservations_push_back hd (SizeT.incr height) ;;;
      push_incoming rest (SizeT.incr height)
  end.

(** [incoming->back()] of a non-empty list [first :: rest]. *)
Definition back {A : Type} (first : A) (rest : list A) : A := last rest first.

(** [full_node::handle_reindexed].  [incoming] is [None] for a null pointer;
    [outgoing] is dereferenced unchecked by the source, so it is a list. *)
Definition handle_reindexed (ec : code) (fork_height : N)
    (incoming : option (list header)) (outgoing : list header)
  : action bool :=
  is_stopped <- p2p.stopped ;;
  if is_stopped || code_eqb ec service_stopped then ret false
  else if is_error ec then
    LOG error "Failure handling reindex: " (arg_code ec) ;;;
    _ <- stop ;;
    ret false
  else
    match incoming with
    | None => ret true
    | Some [] => ret true
    | Some (first :: rest) =>
        let height :=
          SizeT.add fork_height (N.of_nat (List.length outgoing)) in
        height <- pop_outgoing (rev outgoing) height ;;
        height <- push_incoming (first :: rest) height ;;
        p2p.set_top_header
          (checkpoint.make (header_hash (back first rest)) height) ;;;
        ret true
    end.

(** The debug log loop of [handle_reorganized], one line per outgoing
    block. *)
Fixpoint log_outgoing (outgoing : list block) : action unit :=
  match outgoing with
  | [] => ret tt
  | b :: rest =>
      LOG debug "Reorganization moved block to pool ["
        (arg_hash (header_hash (block_header b))) ;;;
      log_outgoing rest
  end.

(** [full_node::handle_reorganized]. *)
Definition handle_reorganized (ec : code) (fork_height : N)
    (incoming : option (list block)) (outgoing : list block)
  : action bool :=
  is_stopped <- p2p.stopped ;;
  if is_stopped || code_eqb ec service_stopped then ret false
  else if is_error ec then
    LOG error "Failure handling reorganization: " (arg_code ec) ;;;
    _ <- stop ;;
    ret false
  else
    match incoming with
    | None => ret true
    | Some [] => ret true
    | Some (first :: rest) =>
        log_outgoing outgoing ;;;
        let height :=
          SizeT.add fork_height (N.of_nat (List.length (first :: rest))) in
        p2p.set_top_block
          (checkpoint.make (block_hash (back first rest)) height) ;;;
        ret true
    end.

(** ** Observations on traces *)

(** The codes the handler was invoked with, in order. *)
Definition handler_codes (t : list event) : list code :=
  flat_map (fun e => match e with handler_invoked ec => [ec] | _ => [] end) t.

(** The [(hash, height)] arguments of the [push_front] calls, in order. *)
Definition pushed_front (t : list event) : list (hash_digest * N) :=
  flat_map (fun e => match e with
                     | reservations_push_front_called h k => [(h, k)]
                     | _ => []
                     end) t.


(** ** Specification-side vocabulary for the re-seeding loop *)

(** [lo + count], [lo + count - 1], ..., [lo + 1]. *)
Fixpoint count_down (lo : N) (count : nat) : list N :=
  match count with
  | O => []
  | S c => (lo + N.of_nat (S c)) :: count_down lo c
  end.

(** The heights [h] with [lo < h <= hi], from [hi] downwards. *)
Definition heights_down (hi lo : N) : list N :=
  count_down lo (N.to_nat (hi - lo)).

(** [chain.get_downloadable(hash, h)] returns true. *)
Definition is_downloadable (c : block_chain) (h : N) : bool :=
  match downloadable c h with
  | Some _ => true
  | None => false
  end.

(** The heights of the [get_downloadable] calls, in order. *)
Definition queried (t : list event) : list N :=
  flat_map (fun e => match e with
                     | chain_get_downloadable_called h _ => [h]
                     | _ => []
                     end) t.

(** The events the re-seeding loop can produce. *)
Definition is_seed_event (e : event) : bool :=
  match e with
  | chain_get_downloadable_called _ _ => true
  | reservations_push_front_called _ _ => true
  | _ => false
  end.

(** The node after [run] has cached both tops. *)
Definition with_tops (confirmed candidate : checkpoint) (n : full_node)
  : full_node :=
  with_top_header candidate (with_top_block confirmed n).

(** ** Specification-side vocabulary for the reorganization handlers *)

(** The elements of [l] paired with heights: the element at position [i]
    (counted from 1) with [fork + (k + i)], in [size_t] arithmetic. *)
Fixpoint at_heights_from {A : Type} (fork k : N) (l : list A)
  : list (A * N) :=
  match l with
  | [] => []
  | x :: rest =>
      (x, SizeT.add fork (k + 1)) :: at_heights_from fork (k + 1) rest
  end.

(** The elements of [l] at the heights [fork + 1], [fork + 2], ... *)
Definition at_heights {A : Type} (fork : N) (l : list A) : list (A * N) :=
  at_heights_from fork 0 l.

Definition pop_call (p : header * N) : event :=
  reservations_pop_back_called (fst p) (snd p).

Definition push_call (p : header * N) : event :=
  reservations_push_back_called (fst p) (snd p).

Definition moved_to_pool (b : block) : event :=
  log debug "Reorganization moved block to pool [" (arg_hash (block_hash b)).

(** ** The console executor (src/console/executor.cpp) *)

Module executor.

(** The options of [metadata_.configured] that the executor reads. *)
Record configuration : Type := Configuration {
  help : bool;
  settings : bool;
  version : bool;
  initchain : bool;
  file : string;
  directory : string;
  use_testnet_rules : bool
}.

(** The answers of boost::filesystem and of [data_base::initialize]. *)
Record filesystem : Type := Filesystem {
  create_directories_result : bool;
  create_directories_error : N;
  exists_result : bool;
  exists_error : N;
  initialize_result : bool
}.

(** The node as the executor sees it (class [p2p_node], not among the
    sources): the codes its [start], [run] and [stop] hand to their
    handlers, and what [stopped()] answers. *)
Record p2p_node : Type := P2pNode {
  start_code : code;
  run_code : code;
  stop_code : code;
  node_stopped : bool
}.

Inductive event : Type :=
| log (l : level) (message : string) (args : list log_arg)
| output (message : string)
| signal_registered (name : string)
| create_directories_called
| exists_called
| data_base_initialize_called (testnet_genesis : bool)
| node_created
| node_start_called
| node_run_called
| node_stop_called
| node_close_called
| node_released.

(** [stopped_] is the static interrupt flag; [node_] is [None] for a null
    pointer; [make_node] is what [std::make_shared<p2p_node>] builds. *)
Record t : Type := Executor {
  stopped_ : bool;
  node_ : option p2p_node;
  metadata_ : configuration;
  disk : filesystem;
  make_node : p2p_node
}.

Definition with_stopped (b : bool) (x : t) : t :=
  Executor b (node_ x) (metadata_ x) (disk x) (make_node x).

Definition with_node (n : option p2p_node) (x : t) : t :=
  Executor (stopped_ x) n (metadata_ x) (disk x) (make_node x).

Definition action : Type -> Type := @M t event.

Definition no_interrupt : N := 0.
Definition directory_exists : N := 0.
Definition directory_not_found : N := 2.

(** [initialize_interrupt]: the static signal handler. *)
Definition initialize_interrupt (signal : N) : action unit :=
  emit (signal_registered "SIGINT") ;;;
  emit (signal_registered "SIGTERM") ;;;
  emit (signal_registered "SIGABRT") ;;;
  if signal =? no_interrupt then
    emit (log info "BN_NODE_INTERRUPT" [])
  else
    flag <- gets stopped_ ;;
    when (negb flag)
      (emit (log info "BN_NODE_STOPPING" [arg_number signal]) ;;;
       modify (with_stopped true)).

(** [executor::initialize_output]. *)
Definition initialize_output : action unit :=
  emit (log debug "BN_LOG_HEADER" []) ;;;
  emit (log info "BN_LOG_HEADER" []) ;;;
  emit (log warning "BN_LOG_HEADER" []) ;;;
  emit (log error "BN_LOG_HEADER" []) ;;;
  emit (log fatal "BN_LOG_HEADER" []) ;;;
  path <- gets (fun x => file (metadata_ x)) ;;
  if String.eqb path "" then emit (log info "BN_USING_DEFAULT_CONFIG" [])
  else emit (log info "BN_USING_CONFIG_FILE" [arg_text path]).

Definition do_help : action unit := emit (output "BN_INFORMATION_MESSAGE").
Definition do_settings : action unit := emit (output "BN_SETTINGS_MESSAGE").
Definition do_version : action unit := emit (output "BN_VERSION_MESSAGE").

(** [executor::do_initchain]. *)
Definition do_initchain : action bool :=
  initialize_output ;;;
  dir <- gets (fun x => directory (metadata_ x)) ;;
  emit create_directories_called ;;;
  created <- gets (fun x => create_directories_result (disk x)) ;;
  if created then
    emit (log info "BN_INITIALIZING_CHAIN" [arg_text dir]) ;;;
    testnet <- gets (fun x => use_testnet_rules (metadata_ x)) ;;
    emit (data_base_initialize_called testnet) ;;;
    gets (fun x => initialize_result (disk x))
  else
    ec <- gets (fun x => create_directories_error (disk x)) ;;
    if ec =? directory_exists then
      emit (log error "BN_INITCHAIN_EXISTS" [arg_text dir]) ;;;
      ret false
    else
      emit (log error "BN_INITCHAIN_NEW" [arg_text dir; arg_number ec]) ;;;
      ret false.

(** [executor::verify]. *)
Definition verify : action bool :=
  dir <- gets (fun x => directory (metadata_ x)) ;;
  emit exists_called ;;;
  found <- gets (fun x => exists_result (disk x)) ;;
  if found then ret true
  else
    ec <- gets (fun x => exists_error (disk x)) ;;
    if ec =? directory_not_found then
      emit (log error "BN_UNINITIALIZED_CHAIN" [arg_text dir]) ;;;
      ret false
    else
      emit (log error "BN_INITCHAIN_TRY" [arg_text dir; arg_number ec]) ;;;
      ret false.

(** [node_->stopped()]; a null [node_] cannot be asked and reads as
    stopped. *)
Definition node_is_stopped : action bool :=
  gets (fun x => match node_ x with
                 | Some n => node_stopped n
                 | None => true
                 end).

(** The code a node operation hands to its handler. *)
Definition node_code (f : p2p_node -> code) : action code :=
  gets (fun x => match node_ x with
                 | Some n => f n
                 | None => operation_failed
                 end).

(** [executor::handle_synchronized]. *)
Definition handle_synchronized (ec : code) : action unit :=
  if is_error ec then
    emit (log info "BN_NODE_START_FAIL" [arg_code ec]) ;;;
    modify (with_stopped true)
  else emit (log info "BN_NODE_SYNCHRONIZED" []).

(** [executor::handle_seeded].  [node_->run] completes by invoking
    [handle_synchronized]. *)
Definition handle_seeded (ec : code) : action unit :=
  if is_error ec then
    emit (log error "BN_NODE_START_FAIL" [arg_code ec]) ;;;
    modify (with_stopped true)
  else
    emit node_run_called ;;;
    run_ec <- node_code run_code ;;
    handle_synchronized run_ec ;;;
    emit (log info "BN_NODE_SEEDED" []).

(** [executor::monitor_stop] with [handle_stopped] as its handler; the
    result is the value the handler stores in the promise.  The polling
    loop sleeps while neither stop flag is set; no statement of the loop
    changes a flag, so in a sequential reading it exits at once or
    never: [None] stands for a loop that does not exit. *)
Definition monitor_stop : action (option code) :=
  flag <- gets stopped_ ;;
  node_flag <- node_is_stopped ;;
  if negb flag && negb node_flag then ret None
  else
    emit (log info "BN_NODE_UNMAPPING" []) ;;;
    emit node_stop_called ;;;
    ec <- node_code stop_code ;;
    emit node_close_called ;;;
    modify (with_node None) ;;;
    emit node_released ;;;
    ret (Some ec).

(** [executor::wait_on_stop]. *)
Definition wait_on_stop : action (option bool) :=
  promised <- monitor_stop ;;
  match promised with
  | None => ret None
  | Some ec =>
      if is_error ec then
        emit (log error "BN_NODE_STOP_FAIL" [arg_code ec]) ;;;
        ret (Some false)
      else
        emit (log info "BN_NODE_STOPPED" []) ;;;
        ret (Some true)
  end.

(** [executor::run].  [node_->start] completes by invoking
    [handle_seeded] with the node's start code. *)
Definition run : action (option bool) :=
  initialize_output ;;;
  initialize_interrupt no_interrupt ;;;
  emit (log info "BN_NODE_STARTING" []) ;;;
  verified <- verify ;;
  if negb verified then ret (Some false)
  else
    fresh <- gets make_node ;;
    modify (with_node (Some fresh)) ;;;
    emit node_created ;;;
    emit node_start_called ;;;
    start_ec <- node_code start_code ;;
    handle_seeded start_ec ;;;
    emit (log info "BN_NODE_STARTED" []) ;;;
    wait_on_stop.

(** [executor::invoke]: the dispatch on the command line options. *)
Definition invoke : action (option bool) :=
  config <- gets metadata_ ;;
  if help config then do_help ;;; ret (Some true)
  else if settings config then do_settings ;;; ret (Some true)
  else if version config then do_version ;;; ret (Some true)
  else if initchain config then
    done <- do_initchain ;; ret (Some done)
  else run.

End executor.

(** ** The entry point (src/console/main.cpp) and [configuration::init] *)

Module configuration.

(** [config::settings]: the network a settings object is built for. *)
Inductive context : Type := mainnet | testnet | regtest.

(** [database::settings]: its context and the member [init] assigns. *)
Record database_settings : Type := DatabaseSettings {
  database_context : context;
  index_addresses : bool
}.

(** [network::settings]: its context and the members [init] assigns. *)
Record network_settings : Type := NetworkSettings {
  network_context : context;
  rotation_size : N;
  inbound_connections : N;
  outbound_connections : N;
  host_pool_capacity : N;
  services : N
}.

(** [message::version::service]. *)
Definition node_network : N := 1.
Definition node_witness : N := 8.

(** [node::configuration]; a null settings pointer is [None].  Of the
    node, blockchain and bitcoin settings only the context is kept. *)
Record t : Type := Configuration {
  version : bool;
  settings : bool;
  help : bool;
  initchain : bool;
  regtest_flag : bool;
  testnet_flag : bool;
  bitcoin : option context;
  chain : option context;
  node : option context;
  database : option database_settings;
  network : option network_settings
}.

(** [configuration::configuration()]. *)
Definition default : t :=
  Configuration false false false false false false
    None None None None None.

(** [configuration::init]: five settings objects are built for [ctx],
    then the node's defaults are written into two of them. *)
Definition init (ctx : context) (c : t) : t :=
  Configuration (version c) (settings c) (help c) (initchain c)
    (regtest_flag c) (testnet_flag c)
    (Some ctx) (Some ctx) (Some ctx)
    (Some (DatabaseSettings ctx false))
    (Some (NetworkSettings ctx 10000000 100 8 10000
             (N.lor node_network node_witness))).

End configuration.

Module main.

Import configuration.

(** Lines 71-84 of [bc::main]: the network is chosen from the two flags
    the command line parser has stored in [configured]. *)
Definition initialize (configured : configuration.t) : configuration.t :=
  if negb (regtest_flag configured) && negb (testnet_flag configured) then
    init mainnet configured
  else if testnet_flag configured then
    init testnet configured
  else
    init regtest configured.

Inductive console_result : Type := okay | failure.

(** Lines 121-124 of [bc::main]:
    [host.menu() ? console_result::okay : console_result::failure].  The
    argument is the value [host.menu()] returned. *)
Definition exit_result (menu_result : bool) : console_result :=
  if menu_result then okay else failure.

(** The network the specification assigns to a pair of flags: mainnet
    when neither is set, testnet whenever [--testnet] is set, regtest when
    [--regtest] is set alone. *)
Definition claimed_network (testnet_set regtest_set : bool) : context :=
  match testnet_set, regtest_set with
  | false, false => mainnet
  | true, _ => testnet
  | false, true => regtest
  end.

(** The contexts of the five settings objects of a configuration. *)
Definition contexts (c : configuration.t) : list (option context) :=
  [bitcoin c; chain c; node c;
   option_map database_context (database c);
   option_map network_context (network c)].

End main.

(** ** Sample inputs *)

Definition sample_chain : block_chain :=
  BlockChain true true true
    (Some (checkpoint.make 100 3)) (Some (checkpoint.make 107 7)) 3
    (fun h => if (h =? 6) || (h =? 4) then None else Some (100 + h)).

Definition sample_network : network := Network success success true true.

Definition sample_node : full_node :=
  FullNode false (checkpoint.make 0 0) (checkpoint.make 0 0) []
    sample_chain sample_network.


(** A fresh chain: only the genesis block, which is valid. *)
Definition genesis_chain : block_chain :=
  BlockChain true true true
    (Some (checkpoint.make 1000 0)) (Some (checkpoint.make 1000 0)) 0
    (fun _ => None).

Definition genesis_node : full_node :=
  FullNode false (checkpoint.make 0 0) (checkpoint.make 0 0) []
    genesis_chain sample_network.

(** A node whose confirmed chain cannot be read. *)
Definition corrupt_chain : block_chain :=
  BlockChain true true true None (Some (checkpoint.make 107 7)) 3
    (fun h => Some (100 + h)).

Definition corrupt_node : full_node :=
  FullNode false (checkpoint.make 0 0) (checkpoint.make 0 0) [(50, 5)]
    corrupt_chain sample_network.


From Stdlib Require Import Sorted.

(** ** Further vocabulary for the run sequence *)

(** The state of the local [hash] after one [get_downloadable] call. *)
Definition written (c : block_chain) (hash : hash_digest) (h : N)
  : hash_digest :=
  match downloadable c h with
  | Some x => x
  | None => hash
  end.

(** The [push_front] arguments of the re-seeding loop as a function of the
    heights it visits, of [start_height] and of the content of the local
    [hash] on entry. *)
Fixpoint seed_pushes (c : block_chain) (start_height : N)
    (hash : hash_digest) (heights : list N) : list (hash_digest * N) :=
  match heights with
  | [] => []
  | h :: rest =>
      (if is_downloadable c h || (h =? start_height)
       then [(written c hash h, h)] else [])
        ++ seed_pushes c start_height (written c hash h) rest
  end.

(** The lowest downloadable height among [lo + 1], ..., [lo + count]. *)
Definition lowest_downloadable (c : block_chain) (lo : N) (count : nat)
  : option N :=
  find (is_downloadable c) (rev (count_down lo count)).

(** What the local [hash] holds when the loop reaches [top_valid + 1]: the
    hash of the lowest downloadable height above it up to the candidate
    top, or its initial content when there is none. *)
Definition stale_hash (c : block_chain) (uninitialized : hash_digest)
    (top_valid hi : N) : hash_digest :=
  match lowest_downloadable c (top_valid + 1)
          (N.to_nat (hi - (top_valid + 1))) with
  | Some h => written c uninitialized h
  | None => uninitialized
  end.

Definition is_reservations_call (e : event) : bool :=
  match e with
  | reservations_pop_back_called _ _ => true
  | reservations_push_back_called _ _ => true
  | reservations_push_front_called _ _ => true
  | _ => false
  end.

Definition is_debug_log (e : event) : bool :=
  match e with
  | log debug _ _ => true
  | _ => false
  end.

Definition is_subscription (e : event) : bool :=
  match e with
  | chain_subscribe_headers_called => true
  | chain_subscribe_blocks_called => true
  | p2p_run_called => true
  | _ => false
  end.

(** ** Further vocabulary for the reorganization handlers *)

(** The queue entries of headers placed at heights. *)
Definition entries (l : list (header * N)) : reservations.t :=
  map (fun p => (header_hash (fst p), snd p)) l.

(** ** [settings_type] (include/bitcoin/node/config/settings_type.hpp) *)

Module settings_type.

(** [minimum_start_height]: [chain.checkpoints] is the list of configured
    checkpoints. *)
Definition minimum_start_height (checkpoints : list checkpoint) : N :=
  match checkpoints with
  | [] => 0
  | first :: rest => checkpoint.height (back first rest)
  end.

(** [log_to_skip]. *)
Definition log_to_skip : string := "".

End settings_type.

(** ** Observations on executor traces *)

Definition is_node_event (e : executor.event) : bool :=
  match e with
  | executor.node_created => true
  | executor.node_start_called => true
  | executor.node_run_called => true
  | executor.node_stop_called => true
  | executor.node_close_called => true
  | executor.node_released => true
  | _ => false
  end.

Definition is_disk_event (e : executor.event) : bool :=
  match e with
  | executor.create_directories_called => true
  | executor.exists_called => true
  | executor.data_base_initialize_called _ => true
  | _ => false
  end.

Definition is_error_log (e : executor.event) : bool :=
  match e with
  | executor.log error _ _ => true
  | _ => false
  end.

(** An executor with the given static flag and options, no node yet. *)
Definition fresh_executor (flag : bool) (c : executor.configuration)
    (d : executor.filesystem) (n : executor.p2p_node) : executor.t :=
  executor.Executor flag None c d n.

(** ** Further sample inputs *)

(** A chain whose candidate bodies are all stored: nothing is downloadable. *)
Definition validated_chain : block_chain :=
  BlockChain true true true
    (Some (checkpoint.make 100 3)) (Some (checkpoint.make 107 7)) 3
    (fun _ => None).

Definition validated_node : full_node :=
  FullNode false (checkpoint.make 0 0) (checkpoint.make 0 0) []
    validated_chain sample_network.

(** An executor asked to initialize a chain where the directory exists. *)
Definition initchain_again : executor.t :=
  fresh_executor false
    (executor.Configuration false false false true "" "blockchain" false)
    (executor.Filesystem false 0 true 0 true)
    (executor.P2pNode success success success false).

(** An executor asked to run a node without an initialized directory. *)
Definition uninitialized_directory : executor.t :=
  fresh_executor false
    (executor.Configuration false false false false "" "blockchain" false)
    (executor.Filesystem false 0 false 2 false)
    (executor.P2pNode success success success false).

(** An executor whose node starts, then fails to run, then fails to stop. *)
Definition failing_run : executor.t :=
  fresh_executor false
    (executor.Configuration false false false false "" "blockchain" false)
    (executor.Filesystem false 0 true 0 true)
    (executor.P2pNode success (other_error 4) operation_failed false).
(** ** Proof support *)

Ltac unfold_calls :=
  unfold p2p.stopped, p2p.set_top_block, p2p.set_top_header, p2p.start,
    p2p.run, p2p.stop, p2p.close, chain.start, chain.stop, chain.close,
    chain.get_top, chain.top_valid_candidate_state_height,
    chain.get_downloadable, chain.subscribe_headers, chain.subscribe_blocks,
    reservations_pop_back, reservations_push_back, reservations_push_front,
    reservations_size, handler, LOG, when, bind, ret, emit, gets, modify
    in *.

Ltac step := unfold_calls; cbn in *.

Lemma bind_run {St Ev A B} (m : @M St Ev A) (k : A -> @M St Ev B) (s : St) :
  bind m k s =
    (result (k (result (m s)) (final (m s))),
     final (k (result (m s)) (final (m s))),
     trace (m s) ++ trace (k (result (m s)) (final (m s)))).
Proof.
  unfold bind, result, final, trace.
  destruct (m s) as [[a s1] t1]. cbn.
  destruct (k a s1) as [[b s2] t2]. reflexivity.
Qed.

(** ** Shutdown *)

Lemma stop_run (n : full_node) :
  stop n =
    (p2p_stop_result (network_ n) && chain_stop_result (chain_ n),
     with_stopped true n,
     [p2p_stop_called; chain_stop_called]
       ++ (if p2p_stop_result (network_ n) then []
           else [log error "Failed to stop network." no_arg])
       ++ (if chain_stop_result (chain_ n) then []
           else [log error "Failed to stop blockchain." no_arg])).
Proof.
  unfold stop. step.
  destruct (p2p_stop_result (network_ n)), (chain_stop_result (chain_ n));
    reflexivity.
Qed.

(** C7.  [stop] calls the network's stop, then the chain's stop, whatever the
    first returns, and returns the conjunction of the two results.  [close]
    first runs [stop]; when that fails it returns false and has called
    neither [close]; otherwise it calls the network's close, then the
    chain's close, and returns the conjunction of their results. *)
Theorem stop_close_conjunction (n : full_node) :
  let net := network_ n in
  let ch := chain_ n in
  stop n =
    (p2p_stop_result net && chain_stop_result ch,
     with_stopped true n,
     [p2p_stop_called; chain_stop_called]
       ++ (if p2p_stop_result net then []
           else [log error "Failed to stop network." no_arg])
       ++ (if chain_stop_result ch then []
           else [log error "Failed to stop blockchain." no_arg]))
  /\ close n =
       if result (stop n) then
         (p2p_close_result net && chain_close_result ch,
          final (stop n),
          trace (stop n)
            ++ [p2p_close_called; chain_close_called]
            ++ (if p2p_close_result net then []
                else [log error "Failed to close network." no_arg])
            ++ (if chain_close_result ch then []
                else [log error "Failed to close blockchain." no_arg]))
       else (false, final (stop n), trace (stop n)).
Proof.
  cbv zeta. split; [apply stop_run |].
  unfold close. rewrite bind_run. rewrite (stop_run n).
  unfold result, final, trace. cbn [fst snd].
  destruct (p2p_stop_result (network_ n)), (chain_stop_result (chain_ n));
    step;
    try (destruct (p2p_close_result (network_ n)),
           (chain_close_result (chain_ n)); reflexivity);
    reflexivity.
Qed.

(** ** Start *)

(** C3.  [start] on a node that is not stopped invokes the handler with
    [operation_failed] and calls nothing else; on a stopped node whose
    [chain.start()] fails it logs and invokes the handler with
    [operation_failed] without calling the network; otherwise it hands over
    to the network's [start].  In each case the handler is invoked exactly
    once. *)
Theorem start_invokes_handler_once (n : full_node) :
  (stopped_ n = false ->
     start n = (tt, n, [handler_invoked operation_failed]))
  /\ (stopped_ n = true -> chain_start_result (chain_ n) = false ->
     start n =
       (tt, n,
        [chain_start_called;
         log error "Failure starting blockchain." no_arg;
         handler_invoked operation_failed]))
  /\ (stopped_ n = true -> chain_start_result (chain_ n) = true ->
     start n =
       (tt, final (p2p.start n), chain_start_called :: trace (p2p.start n)))
  /\ List.length (handler_codes (trace (start n))) = 1%nat.
Proof.
  unfold start. step.
  destruct (stopped_ n); cbn;
    destruct (chain_start_result (chain_ n)); cbn;
    repeat split; intros; try discriminate; reflexivity.
Qed.

Lemma start_invokes_handler_once_witness :
  start sample_node = (tt, sample_node, [handler_invoked operation_failed])
  /\ start (with_stopped true sample_node) =
       (tt, sample_node,
        [chain_start_called; p2p_start_called; handler_invoked success]).
Proof.
  split.
  - apply (start_invokes_handler_once sample_node). reflexivity.
  - apply (start_invokes_handler_once (with_stopped true sample_node));
      reflexivity.
Defined.

(** ** Error codes in the reorganization handlers *)

(** C6.  A reorganization handler that receives a non-success code returns
    false.  When the node is stopped or the code is [service_stopped] it
    does nothing else; for any other error code it logs the failure, runs
    [stop] and returns false. *)
Theorem handlers_unsubscribe_on_error (n : full_node) (ec : code)
    (fork_height : N) (headers_in : option (list header))
    (headers_out : list header) (blocks_in : option (list block))
    (blocks_out : list block) :
  is_error ec = true ->
  (stopped_ n = true \/ ec = service_stopped ->
     handle_reindexed ec fork_height headers_in headers_out n = (false, n, [])
     /\ handle_reorganized ec fork_height blocks_in blocks_out n
        = (false, n, []))
  /\ (stopped_ n = false -> ec <> service_stopped ->
     handle_reindexed ec fork_height headers_in headers_out n
       = (false, final (stop n),
          log error "Failure handling reindex: " (arg_code ec)
            :: trace (stop n))
     /\ handle_reorganized ec fork_height blocks_in blocks_out n
        = (false, final (stop n),
           log error "Failure handling reorganization: " (arg_code ec)
             :: trace (stop n)))
  /\ result (handle_reindexed ec fork_height headers_in headers_out n) = false
  /\ result (handle_reorganized ec fork_height blocks_in blocks_out n) = false.
Proof.
  intros Hec.
  rewrite !(stop_run n). unfold result, final, trace. cbn [fst snd].
  unfold handle_reindexed, handle_reorganized, stop. step.
  destruct (stopped_ n); cbn.
  - repeat split; intros; try discriminate; reflexivity.
  - destruct ec as [| | | v]; try discriminate Hec; cbn;
      destruct (p2p_stop_result (network_ n)),
        (chain_stop_result (chain_ n)); cbn;
      repeat split; intros; try congruence; try reflexivity;
      match goal with
      | H : _ \/ _ |- _ => destruct H; discriminate
      end.
Qed.

Lemma handlers_unsubscribe_on_error_witness :
  handle_reindexed (other_error 5) 198 (Some [Header 1199]) [] sample_node
    = (false, with_stopped true sample_node,
       [log error "Failure handling reindex: " (arg_code (other_error 5));
        p2p_stop_called; chain_stop_called])
  /\ handle_reorganized service_stopped 198 None [] sample_node
     = (false, sample_node, []).
Proof.
  split.
  - apply (handlers_unsubscribe_on_error sample_node (other_error 5) 198
             (Some [Header 1199]) [] None []);
      [reflexivity | reflexivity | discriminate].
  - apply (handlers_unsubscribe_on_error sample_node service_stopped 198
             None [] None []); [reflexivity | right; reflexivity].
Defined.

(** ** Block reorganizations *)

Lemma log_outgoing_run (outgoing : list block) (n : full_node) :
  log_outgoing outgoing n = (tt, n, map moved_to_pool outgoing).
Proof.
  induction outgoing as [| b rest IH]; [reflexivity |].
  cbn [log_outgoing map]. rewrite bind_run.
  unfold LOG, emit, result, final, trace. cbn [fst snd].
  rewrite IH. reflexivity.
Qed.

(** C5, as stated, fails on a stopped node: the handler returns false
    before looking at [incoming], so the confirmed top is not updated and an
    empty [incoming] does not keep the subscription. *)
Lemma handle_reorganized_stopped_counterexample :
  top_block_
    (final (handle_reorganized success 100 (Some [Block (Header 1101)]) []
              (with_stopped true sample_node)))
    <> checkpoint.make 1101 101
  /\ result (handle_reorganized success 100 (Some []) []
               (with_stopped true sample_node)) <> true.
Proof. split; vm_compute; discriminate. Qed.

(** C5, amended.  On a node that is not stopped, [handle_reorganized] with
    the success code returns true and leaves the reservations alone (it
    makes no call at all besides debug logging).  With a non-empty
    [incoming] the only state change is the cached confirmed top, which
    becomes [(incoming.back.hash, fork_height + incoming.size())]; with an
    empty or null [incoming] the state is unchanged and nothing is
    logged. *)
Theorem handle_reorganized_running (n : full_node) (fork_height : N)
    (incoming : option (list block)) (outgoing : list block) :
  stopped_ n = false ->
  let r := handle_reorganized success fork_height incoming outgoing n in
  result r = true
  /\ reservations_ (final r) = reservations_ n
  /\ match incoming with
     | Some (first :: rest) =>
         final r =
           with_top_block
             (checkpoint.make (block_hash (back first rest))
                (SizeT.add fork_height
                   (N.of_nat (List.length (first :: rest))))) n
         /\ trace r = map moved_to_pool outgoing
     | _ => final r = n /\ trace r = []
     end.
Proof.
  intros Hrun. cbv zeta. unfold handle_reorganized.
  rewrite bind_run. unfold p2p.stopped, gets, result, final, trace.
  cbn [fst snd]. rewrite Hrun. cbn [orb code_eqb is_error app].
  destruct incoming as [[| first rest] |]; cbn [ret fst snd];
    try (repeat split; reflexivity).
  rewrite bind_run, log_outgoing_run.
  unfold result, final, trace. cbn [fst snd].
  unfold p2p.set_top_block, bind, modify, ret. cbn [fst snd].
  rewrite app_nil_r. repeat split; reflexivity.
Qed.

Lemma handle_reorganized_running_witness :
  top_block_
    (final (handle_reorganized success 100 (Some [Block (Header 1101)]) []
              sample_node))
    = checkpoint.make 1101 101.
Proof.
  pose proof (handle_reorganized_running sample_node 100
                (Some [Block (Header 1101)]) [] eq_refl) as H.
  cbv zeta in H. destruct H as [_ [_ [H _]]].
  rewrite H. reflexivity.
Defined.

(** ** Arithmetic on [size_t] *)

Lemma incr_add (fork k : N) :
  SizeT.incr (SizeT.add fork k) = SizeT.add fork (k + 1).
Proof.
  unfold SizeT.incr, SizeT.add, SizeT.wrap.
  rewrite N.Div0.add_mod_idemp_l. f_equal. lia.
Qed.

Lemma decr_add (fork k : N) :
  SizeT.decr (SizeT.add fork (k + 1)) = SizeT.add fork k.
Proof.
  unfold SizeT.decr, SizeT.add, SizeT.wrap.
  rewrite N.Div0.add_mod_idemp_l.
  replace (fork + (k + 1) + (SizeT.modulus - 1))
    with (fork + k + 1 * SizeT.modulus)
    by (unfold SizeT.modulus; lia).
  apply N.Div0.mod_add.
Qed.

Lemma add_small (a b : N) :
  a + b < SizeT.modulus -> SizeT.add a b = a + b.
Proof. intros H. unfold SizeT.add, SizeT.wrap. apply N.mod_small, H. Qed.

Lemma decr_small (h : N) :
  0 < h < SizeT.modulus -> SizeT.decr h = h - 1.
Proof.
  intros H. unfold SizeT.decr, SizeT.wrap.
  replace (h + (SizeT.modulus - 1)) with (h - 1 + 1 * SizeT.modulus)
    by (unfold SizeT.modulus in *; lia).
  rewrite N.Div0.mod_add. apply N.mod_small. lia.
Qed.

(** ** Calls into the reservations *)

Lemma reservations_pop_back_run (hd : header) (h : N) (n : full_node) :
  reservations_pop_back hd h n =
    (tt, with_reservations (reservations.pop_back hd h (reservations_ n)) n,
     [reservations_pop_back_called hd h]).
Proof. reflexivity. Qed.

Lemma reservations_push_back_run (hd : header) (h : N) (n : full_node) :
  reservations_push_back hd h n =
    (tt, with_reservations (reservations.push_back hd h (reservations_ n)) n,
     [reservations_push_back_called hd h]).
Proof. reflexivity. Qed.

Lemma reservations_push_front_run (hash : hash_digest) (h : N)
    (n : full_node) :
  reservations_push_front hash h n =
    (tt, with_reservations (reservations.push_front hash h (reservations_ n)) n,
     [reservations_push_front_called hash h]).
Proof. reflexivity. Qed.

(** ** Header reorganizations *)

Lemma at_heights_from_snoc {A : Type} (fork k : N) (l : list A) (x : A) :
  at_heights_from fork k (l ++ [x]) =
    at_heights_from fork k l
      ++ [(x, SizeT.add fork (k + N.of_nat (List.length l) + 1))].
Proof.
  revert k. induction l as [| y l IH]; intros k.
  - cbn [app at_heights_from List.length].
    replace (k + N.of_nat 0 + 1) with (k + 1) by lia. reflexivity.
  - cbn [app at_heights_from List.length]. rewrite IH.
    replace (k + 1 + N.of_nat (List.length l) + 1)
      with (k + N.of_nat (S (List.length l)) + 1) by lia.
    reflexivity.
Qed.

Lemma at_heights_snoc {A : Type} (fork : N) (l : list A) (x : A) :
  at_heights fork (l ++ [x]) =
    at_heights fork l
      ++ [(x, SizeT.add fork (N.of_nat (List.length l) + 1))].
Proof. unfold at_heights. rewrite at_heights_from_snoc. reflexivity. Qed.

(** The pop loop visits [outgoing] from its last header to its first, the
    header at position [k] (from 1) at height [fork + k], and leaves
    [height] at [fork]. *)
Lemma pop_outgoing_run (fork : N) (outgoing : list header) (n : full_node) :
  exists q,
    pop_outgoing (rev outgoing)
      (SizeT.add fork (N.of_nat (List.length outgoing))) n
    = (SizeT.add fork 0, with_reservations q n,
       map pop_call (rev (at_heights fork outgoing))).
Proof.
  revert n. induction outgoing as [| x l IH] using rev_ind; intros n.
  - exists (reservations_ n). cbn. destruct n; reflexivity.
  - rewrite rev_app_distr, at_heights_snoc, rev_app_distr, length_app.
    cbn [rev app List.length pop_outgoing map].
    rewrite bind_run.
    replace (N.of_nat (List.length l + 1)) with (N.of_nat (List.length l) + 1)
      by lia.
    rewrite decr_add.
    rewrite reservations_pop_back_run.
    unfold result, final, trace. cbn [fst snd app].
    match goal with
    | |- context [pop_outgoing _ _ ?m] => destruct (IH m) as [q Hq]
    end.
    rewrite Hq. cbn [fst snd]. exists q. reflexivity.
Qed.

(** The push loop appends the headers in order at the heights that follow
    [height]. *)
Lemma push_incoming_run (fork k : N) (incoming : list header)
    (n : full_node) :
  push_incoming incoming (SizeT.add fork k) n
  = (SizeT.add fork (k + N.of_nat (List.length incoming)),
     with_reservations
       (reservations_ n
          ++ map (fun p => (header_hash (fst p), snd p))
               (at_heights_from fork k incoming)) n,
     map push_call (at_heights_from fork k incoming)).
Proof.
  revert k n. induction incoming as [| hd rest IH]; intros k n.
  - cbn. rewrite N.add_0_r, app_nil_r. destruct n; reflexivity.
  - cbn [push_incoming at_heights_from map List.length].
    rewrite bind_run, incr_add, IH.
    rewrite reservations_push_back_run. unfold reservations.push_back.
    unfold result, final, trace.
    cbn [fst snd app reservations_ with_reservations].
    rewrite <- app_assoc. cbn [app].
    replace (k + 1 + N.of_nat (List.length rest))
      with (k + N.of_nat (S (List.length rest))) by lia.
    reflexivity.
Qed.

Lemma last_cons_back {A : Type} (first : A) (rest : list A) (d : A) :
  last (first :: rest) d = back first rest.
Proof.
  unfold back. revert first d.
  induction rest as [| y rest IH]; intros first d.
  - reflexivity.
  - change (last (first :: y :: rest) d) with (last (y :: rest) d).
    rewrite (IH y d), (IH y first). reflexivity.
Qed.

Lemma tail_snoc (q : reservations.t) (e : reservations.entry) :
  reservations.tail (q ++ [e]) = Some e.
Proof. unfold reservations.tail. rewrite rev_app_distr. reflexivity. Qed.

Lemma at_heights_back {A : Type} (fork : N) (first : A) (rest : list A) :
  exists before,
    at_heights fork (first :: rest) =
      before
        ++ [(back first rest,
             SizeT.add fork (N.of_nat (List.length (first :: rest))))].
Proof.
  assert (Hne : first :: rest <> []) by discriminate.
  pose proof (app_removelast_last first Hne) as Hsplit.
  rewrite last_cons_back in Hsplit.
  remember (removelast (first :: rest)) as front eqn:Hfront.
  exists (at_heights fork front).
  rewrite Hsplit, at_heights_snoc, length_app. cbn [List.length].
  replace (N.of_nat (List.length front + 1))
    with (N.of_nat (List.length front) + 1) by lia.
  reflexivity.
Qed.

(** C1, as stated, fails on a stopped node: the handler returns false
    before it touches the queue, so nothing is popped or pushed, the tail is
    not at [fork_height + incoming.size()] and the candidate top keeps its
    old value. *)
Lemma handle_reindexed_stopped_counterexample :
  let r := handle_reindexed success 100 (Some [Header 1101]) []
             (with_stopped true sample_node) in
  trace r = []
  /\ reservations.tail (reservations_ (final r)) <> Some (1101, 101)
  /\ top_header_ (final r) <> checkpoint.make 1101 101.
Proof. cbv zeta. repeat split; vm_compute; discriminate. Qed.

(** C1, amended.  On a node that is not stopped, [handle_reindexed] with the
    success code and a non-empty [incoming] returns true after these calls,
    in this order and no others: [pop_back] for the outgoing headers from the
    last to the first, the header at position [k] at height
    [fork_height + k], hence at descending heights from
    [fork_height + outgoing.size()]; then [push_back] for the incoming
    headers from the first to the last at the heights [fork_height + 1] up to
    [fork_height + incoming.size()].  Afterwards the tail of the queue and
    the cached candidate top are both
    [(incoming.back.hash, fork_height + incoming.size())].  Heights are
    [size_t] values. *)
Theorem handle_reindexed_running (n : full_node) (fork_height : N)
    (first : header) (rest outgoing : list header) :
  stopped_ n = false ->
  let incoming := first :: rest in
  let r := handle_reindexed success fork_height (Some incoming) outgoing n in
  let top := SizeT.add fork_height (N.of_nat (List.length incoming)) in
  result r = true
  /\ trace r =
       map pop_call (rev (at_heights fork_height outgoing))
         ++ map push_call (at_heights fork_height incoming)
  /\ reservations.tail (reservations_ (final r))
     = Some (header_hash (back first rest), top)
  /\ top_header_ (final r)
     = checkpoint.make (header_hash (back first rest)) top.
Proof.
  intros Hrun. cbv zeta. unfold handle_reindexed.
  rewrite bind_run. unfold p2p.stopped, gets, result, final, trace.
  cbn [fst snd]. rewrite Hrun. cbn [orb code_eqb is_error app].
  destruct (pop_outgoing_run fork_height outgoing n) as [q Hpop].
  rewrite bind_run, Hpop. unfold result, final, trace. cbn [fst snd].
  rewrite bind_run, push_incoming_run.
  unfold result, final, trace. cbn [fst snd].
  unfold p2p.set_top_header, bind, modify, ret.
  cbn [fst snd reservations_ with_reservations with_top_header top_header_].
  rewrite app_nil_r. fold (at_heights fork_height (first :: rest)).
  rewrite N.add_0_l.
  repeat split.
  destruct (at_heights_back fork_height first rest) as [before Hback].
  rewrite Hback, map_app, app_assoc. cbn [map fst snd].
  apply tail_snoc.
Qed.

Lemma handle_reindexed_running_witness :
  let r := handle_reindexed success 198
             (Some [Header 1199; Header 1200; Header 1201])
             [Header 199; Header 200]
             (with_reservations [(198, 198); (199, 199); (200, 200)]
                sample_node) in
  trace r =
    [reservations_pop_back_called (Header 200) 200;
     reservations_pop_back_called (Header 199) 199;
     reservations_push_back_called (Header 1199) 199;
     reservations_push_back_called (Header 1200) 200;
     reservations_push_back_called (Header 1201) 201]
  /\ reservations.tail (reservations_ (final r)) = Some (1201, 201).
Proof.
  cbv zeta.
  pose proof (handle_reindexed_running
                (with_reservations [(198, 198); (199, 199); (200, 200)]
                   sample_node)
                198 (Header 1199) [Header 1200; Header 1201]
                [Header 199; Header 200] eq_refl) as H.
  cbv zeta in H. destruct H as [_ [Htrace [Htail _]]].
  split; [rewrite Htrace | rewrite Htail]; reflexivity.
Defined.

(** ** The re-seeding loop *)

Lemma seed_reservations_body (top_valid start_height height : N)
    (hash : hash_digest) :
  seed_reservations top_valid start_height height hash =
    if top_valid <? height then
      found <- chain.get_downloadable height ;;
      let hash' := match found with Some h => h | None => hash end in
      when (match found with Some _ => true | None => false end
            || (height =? start_height))
        (reservations_push_front hash' height) ;;;
      seed_reservations top_valid start_height (SizeT.decr height) hash'
    else ret tt.
Proof.
  destruct (top_valid <? height) eqn:Hcmp; simp seed_reservations;
    destruct (inspect (top_valid <? height)) as [[|] Heq];
    try congruence; reflexivity.
Qed.

Lemma get_downloadable_run (h : N) (n : full_node) :
  chain.get_downloadable h n =
    (downloadable (chain_ n) h, n,
     [chain_get_downloadable_called h (is_downloadable (chain_ n) h)]).
Proof. reflexivity. Qed.

(** One turn of the loop body, as a run. *)
Lemma seed_reservations_step (top_valid start_height height : N)
    (hash : hash_digest) (n : full_node) :
  top_valid < height ->
  let found := downloadable (chain_ n) height in
  let hash' := match found with Some h => h | None => hash end in
  let pushes := is_downloadable (chain_ n) height || (height =? start_height) in
  let n' := if pushes
            then with_reservations ((hash', height) :: reservations_ n) n
            else n in
  let rest := seed_reservations top_valid start_height (SizeT.decr height)
                hash' n' in
  seed_reservations top_valid start_height height hash n =
    (tt, final rest,
     chain_get_downloadable_called height (is_downloadable (chain_ n) height)
       :: (if pushes then [reservations_push_front_called hash' height]
           else [])
       ++ trace rest).
Proof.
  intros Hlt. cbv zeta. rewrite seed_reservations_body.
  apply N.ltb_lt in Hlt. rewrite Hlt.
  unfold bind at 1. rewrite get_downloadable_run. cbv beta iota zeta.
  fold (is_downloadable (chain_ n) height).
  unfold bind at 1.
  destruct (is_downloadable (chain_ n) height || (height =? start_height));
    unfold when.
  - rewrite reservations_push_front_run. unfold reservations.push_front.
    cbv beta iota. unfold final, trace.
    destruct (seed_reservations _ _ _ _ _) as [[[] s] t]. reflexivity.
  - unfold ret at 1. cbv beta iota. unfold final, trace.
    destruct (seed_reservations _ _ _ _ _) as [[[] s] t]. reflexivity.
Qed.

Lemma queried_get_downloadable (h : N) (b : bool) (t : list event) :
  queried (chain_get_downloadable_called h b :: t) = h :: queried t.
Proof. reflexivity. Qed.

Lemma queried_push_front (x : hash_digest) (h : N) (t : list event) :
  queried (reservations_push_front_called x h :: t) = queried t.
Proof. reflexivity. Qed.

Lemma pushed_front_get_downloadable (h : N) (b : bool) (t : list event) :
  pushed_front (chain_get_downloadable_called h b :: t) = pushed_front t.
Proof. reflexivity. Qed.

Lemma pushed_front_push_front (x : hash_digest) (h : N) (t : list event) :
  pushed_front (reservations_push_front_called x h :: t)
  = (x, h) :: pushed_front t.
Proof. reflexivity. Qed.

Lemma seed_reservations_done (top_valid start_height height : N)
    (hash : hash_digest) (n : full_node) :
  height <= top_valid ->
  seed_reservations top_valid start_height height hash n = (tt, n, []).
Proof.
  intros Hle. rewrite seed_reservations_body.
  apply N.ltb_ge in Hle. rewrite Hle. reflexivity.
Qed.

Lemma with_reservations_same (n : full_node) :
  with_reservations (reservations_ n) n = n.
Proof. destruct n; reflexivity. Qed.

(** What the loop does, for a start height that is a [size_t] value: it
    asks [get_downloadable] at every height from [height] down to
    [top_valid + 1], pushes to the front at those heights that are
    downloadable or equal to [start_height], makes no other call and changes
    nothing but the queue. *)
Lemma seed_reservations_run (top_valid start_height : N) (count : nat) :
  forall (height : N) (hash : hash_digest) (n : full_node),
    height < SizeT.modulus ->
    N.to_nat (height - top_valid) = count ->
    let r := seed_reservations top_valid start_height height hash n in
    queried (trace r) = count_down top_valid count
    /\ map snd (pushed_front (trace r)) =
         filter (fun h => is_downloadable (chain_ n) h || (h =? start_height))
           (count_down top_valid count)
    /\ forallb is_seed_event (trace r) = true
    /\ final r =
         with_reservations (rev (pushed_front (trace r)) ++ reservations_ n) n.
Proof.
  induction count as [| count IH]; intros height hash n Hsize Hcount;
    cbv zeta.
  - rewrite seed_reservations_done by lia.
    unfold trace, final. cbn. rewrite with_reservations_same.
    repeat split.
  - assert (Hlt : top_valid < height) by lia.
    rewrite (seed_reservations_step _ _ _ _ _ Hlt). cbv zeta.
    rewrite decr_small by lia.
    set (hash' := match downloadable (chain_ n) height with
                  | Some h => h
                  | None => hash
                  end).
    set (pushes := is_downloadable (chain_ n) height
                   || (height =? start_height)).
    set (n' := if pushes
               then with_reservations ((hash', height) :: reservations_ n) n
               else n).
    assert (Hchain : chain_ n' = chain_ n)
      by (unfold n'; destruct pushes; reflexivity).
    assert (Hcount' : N.to_nat (height - 1 - top_valid) = count) by lia.
    assert (Hsize' : height - 1 < SizeT.modulus) by lia.
    destruct (IH (height - 1) hash' n' Hsize' Hcount')
      as [Hq [Hp [He Hf]]].
    rewrite Hchain in Hp.
    assert (Hheight : top_valid + N.of_nat (S count) = height) by lia.
    remember (seed_reservations top_valid start_height (height - 1) hash' n')
      as rest eqn:Hrest.
    unfold trace, final in *. cbn [fst snd] in *.
    cbn [count_down filter]. rewrite Hheight. fold pushes.
    rewrite Hf. unfold n'. clear Hrest.
    destruct pushes; cbn [app];
      rewrite ?queried_get_downloadable, ?queried_push_front,
        ?pushed_front_get_downloadable, ?pushed_front_push_front;
      cbn [map snd forallb is_seed_event andb rev reservations_
           with_reservations];
      rewrite Hq, Hp, He.
    + rewrite <- app_assoc. repeat split.
    + repeat split.
Qed.

Lemma decr_lt (h : N) : 0 < h -> SizeT.decr h < h.
Proof.
  intros Hpos.
  destruct (N.lt_ge_cases h SizeT.modulus) as [Hlt | Hge].
  - rewrite decr_small by lia. lia.
  - unfold SizeT.decr, SizeT.wrap.
    pose proof (N.mod_upper_bound (h + (SizeT.modulus - 1)) SizeT.modulus).
    unfold SizeT.modulus in *. lia.
Qed.

(** The loop changes nothing but the queue, from any start height. *)
Lemma seed_reservations_frame (top_valid start_height : N) (count : nat) :
  forall (height : N) (hash : hash_digest) (n : full_node),
    (N.to_nat (height - top_valid) <= count)%nat ->
    (exists q,
       final (seed_reservations top_valid start_height height hash n)
       = with_reservations q n)
    /\ forallb is_seed_event
         (trace (seed_reservations top_valid start_height height hash n))
       = true.
Proof.
  induction count as [| count IH]; intros height hash n Hcount.
  - rewrite seed_reservations_done by lia. split; [| reflexivity].
    exists (reservations_ n). symmetry. apply with_reservations_same.
  - destruct (N.le_gt_cases height top_valid) as [Hle | Hlt].
    + rewrite seed_reservations_done by lia. split; [| reflexivity].
      exists (reservations_ n). symmetry. apply with_reservations_same.
    + rewrite (seed_reservations_step _ _ _ _ _ Hlt). cbv zeta.
      assert (Hdecr : SizeT.decr height < height) by (apply decr_lt; lia).
      destruct (is_downloadable (chain_ n) height || (height =? start_height));
        match goal with
        | |- context [seed_reservations _ _ _ ?h ?m] =>
            destruct (IH (SizeT.decr height) h m) as [[q Hq] He]; [lia |]
        end;
        unfold final, trace in *; cbn [fst snd] in *;
        rewrite Hq; cbn [app forallb is_seed_event andb]; rewrite He;
        (split; [eexists; reflexivity | reflexivity]).
Qed.

(** ** The run sequence *)

Arguments seed_reservations : simpl never.

(** A run that finds both tops: the calls before the loop, the loop, the
    calls after it. *)
Lemma run_found_tops (uninitialized : hash_digest) (n : full_node)
    (confirmed candidate : checkpoint) :
  stopped_ n = false ->
  top_confirmed (chain_ n) = Some confirmed ->
  top_candidate (chain_ n) = Some candidate ->
  let top_valid := top_valid_candidate_height (chain_ n) in
  let seeded :=
    seed_reservations top_valid (SizeT.add top_valid 1)
      (checkpoint.height candidate) uninitialized
      (with_tops confirmed candidate n) in
  run uninitialized n =
    (tt, final seeded,
     [chain_get_top_called false true;
      log info "Top confirmed block height is ("
        (arg_number (checkpoint.height confirmed));
      chain_get_top_called true true;
      log info "Top candidate block height is ("
        (arg_number (checkpoint.height candidate));
      chain_top_valid_candidate_state_called;
      log info "Top valid candidate block height (" (arg_number top_valid)]
       ++ trace seeded
       ++ [log info "Pending block downloads ("
             (arg_number (reservations.size (reservations_ (final seeded))));
           chain_subscribe_headers_called;
           chain_subscribe_blocks_called;
           p2p_run_called;
           handler_invoked (p2p_run_code (network_ n))]).
Proof.
  intros Hrun Hconfirmed Hcandidate. cbv zeta.
  unfold run, handle_running.
  unfold bind at 1. unfold p2p.stopped at 1. unfold gets at 1.
  cbv beta iota. rewrite Hrun.
  unfold bind at 1. unfold p2p.stopped at 1. unfold gets at 1.
  cbv beta iota. rewrite Hrun. cbn [is_error].
  unfold bind at 1. unfold chain.get_top at 1.
  unfold bind at 1. unfold gets at 1. cbv beta iota. rewrite Hconfirmed.
  step. rewrite Hcandidate. cbn.
  fold (with_tops confirmed candidate n).
  destruct (seed_reservations_frame
              (top_valid_candidate_height (chain_ n))
              (SizeT.add (top_valid_candidate_height (chain_ n)) 1)
              _ (checkpoint.height candidate) uninitialized
              (with_tops confirmed candidate n) (le_n _))
    as [[q Hframe] _].
  destruct (seed_reservations _ _ _ _ _) as [[[] s] t] eqn:Hseed.
  unfold final, trace in *. cbn [fst snd] in *. subst s. reflexivity.
Qed.

Lemma In_count_down (lo : N) (count : nat) (h : N) :
  In h (count_down lo count) <-> lo < h <= lo + N.of_nat count.
Proof.
  induction count as [| count IH]; cbn [count_down In].
  - lia.
  - rewrite IH. lia.
Qed.

Lemma count_down_last (lo : N) (count : nat) :
  exists before, count_down lo (S count) = before ++ [lo + 1].
Proof.
  induction count as [| count [before IH]].
  - exists []. reflexivity.
  - exists ((lo + N.of_nat (S (S count))) :: before).
    change (count_down lo (S (S count)))
      with ((lo + N.of_nat (S (S count))) :: count_down lo (S count)).
    rewrite IH. reflexivity.
Qed.

(** Inside the scanned range the wrapped [top_valid + 1u] is the plain
    successor. *)
Lemma start_height_in_range (top_valid hi h : N) :
  hi < SizeT.modulus -> top_valid < h <= hi ->
  (h =? SizeT.add top_valid 1) = (h =? top_valid + 1).
Proof. intros Hhi Hh. rewrite add_small by lia. reflexivity. Qed.

(** The queries and pushes of a run that finds both tops are those of its
    loop. *)
Lemma run_found_tops_observed (uninitialized : hash_digest) (n : full_node)
    (confirmed candidate : checkpoint) :
  stopped_ n = false ->
  top_confirmed (chain_ n) = Some confirmed ->
  top_candidate (chain_ n) = Some candidate ->
  let top_valid := top_valid_candidate_height (chain_ n) in
  let seeded :=
    seed_reservations top_valid (SizeT.add top_valid 1)
      (checkpoint.height candidate) uninitialized
      (with_tops confirmed candidate n) in
  queried (trace (run uninitialized n)) = queried (trace seeded)
  /\ pushed_front (trace (run uninitialized n)) = pushed_front (trace seeded)
  /\ final (run uninitialized n) = final seeded.
Proof.
  intros Hrun Hconfirmed Hcandidate. cbv zeta.
  rewrite (run_found_tops uninitialized n confirmed candidate
             Hrun Hconfirmed Hcandidate).
  cbv zeta.
  remember (seed_reservations _ _ _ _ _) as seeded eqn:Hseeded.
  unfold trace, final. cbn [fst snd].
  unfold queried, pushed_front. cbn [flat_map app].
  rewrite !flat_map_app. cbn [flat_map app]. rewrite !app_nil_r.
  repeat split.
Qed.

(** C2.  In a run that gets past both [get_top] calls, the loop asks
    [get_downloadable] at the heights from the candidate top down to
    [top_valid + 1], and [push_front] is called, in that order, at exactly
    those of these heights where [get_downloadable] returned true or that
    equal [top_valid + 1]. *)
Theorem run_seeds_reservations (uninitialized : hash_digest) (n : full_node)
    (confirmed candidate : checkpoint) :
  stopped_ n = false ->
  top_confirmed (chain_ n) = Some confirmed ->
  top_candidate (chain_ n) = Some candidate ->
  checkpoint.height candidate < SizeT.modulus ->
  let top_valid := top_valid_candidate_height (chain_ n) in
  let t := trace (run uninitialized n) in
  queried t = heights_down (checkpoint.height candidate) top_valid
  /\ map snd (pushed_front t) =
       filter
         (fun h => is_downloadable (chain_ n) h || (h =? top_valid + 1))
         (heights_down (checkpoint.height candidate) top_valid)
  /\ (forall h,
        In h (map snd (pushed_front t)) <->
        top_valid < h <= checkpoint.height candidate
        /\ (is_downloadable (chain_ n) h = true \/ h = top_valid + 1)).
Proof.
  intros Hrun Hconfirmed Hcandidate Hsize. cbv zeta.
  destruct (run_found_tops_observed uninitialized n confirmed candidate
              Hrun Hconfirmed Hcandidate) as [Hq [Hp _]].
  cbv zeta in Hq, Hp. rewrite Hq, Hp.
  destruct (seed_reservations_run
              (top_valid_candidate_height (chain_ n))
              (SizeT.add (top_valid_candidate_height (chain_ n)) 1)
              _ (checkpoint.height candidate) uninitialized
              (with_tops confirmed candidate n) Hsize eq_refl)
    as [Hqueried [Hpushed _]].
  cbv zeta in Hqueried, Hpushed.
  change (chain_ (with_tops confirmed candidate n)) with (chain_ n)
    in Hpushed.
  assert (Hfilter :
    filter
      (fun h => is_downloadable (chain_ n) h
                || (h =? SizeT.add (top_valid_candidate_height (chain_ n)) 1))
      (heights_down (checkpoint.height candidate)
         (top_valid_candidate_height (chain_ n)))
    = filter
        (fun h => is_downloadable (chain_ n) h
                  || (h =? top_valid_candidate_height (chain_ n) + 1))
        (heights_down (checkpoint.height candidate)
           (top_valid_candidate_height (chain_ n)))).
  { apply filter_ext_in. intros h Hin.
    apply In_count_down in Hin.
    rewrite (start_height_in_range _ (checkpoint.height candidate)) by lia.
    reflexivity. }
  fold (heights_down (checkpoint.height candidate)
          (top_valid_candidate_height (chain_ n))) in Hqueried, Hpushed.
  rewrite Hqueried, Hpushed, Hfilter.
  split; [reflexivity | split; [reflexivity |]].
  intros h. rewrite filter_In. unfold heights_down.
  rewrite In_count_down, orb_true_iff, N.eqb_eq, N2Nat.id.
  split; intros [Hrange Hwhy]; (split; [lia | exact Hwhy]).
Qed.

Lemma run_seeds_reservations_witness :
  pushed_front (trace (run 999 sample_node)) = [(107, 7); (105, 5); (105, 4)]
  /\ map snd (pushed_front (trace (run 999 sample_node))) =
       filter (fun h => is_downloadable sample_chain h || (h =? 3 + 1))
         (heights_down 7 3).
Proof.
  split; [reflexivity |].
  apply (run_seeds_reservations 999 sample_node (checkpoint.make 100 3)
           (checkpoint.make 107 7) eq_refl eq_refl eq_refl eq_refl).
Defined.

(** C8, as stated, fails when the candidate top is not above the last valid
    height: on a fresh chain (N = M = 0) the loop body never runs and the
    queue holds no reservation at height 1. *)
Lemma run_seeds_nothing_counterexample :
  top_candidate (chain_ genesis_node) = Some (checkpoint.make 1000 0)
  /\ top_valid_candidate_height (chain_ genesis_node) = 0
  /\ pushed_front (trace (run 0 genesis_node)) = []
  /\ forall hash,
       ~ In (hash, 0 + 1) (reservations_ (final (run 0 genesis_node))).
Proof.
  repeat split. intros hash Hin. vm_compute in Hin. exact Hin.
Qed.

(** C8, amended.  When the candidate top N is above the last valid height M
    (and is a [size_t] value), a run that gets past both [get_top] calls
    pushes a reservation at height M + 1, and it is the one at the front of
    the queue afterwards. *)
Theorem run_seeds_start_height (uninitialized : hash_digest) (n : full_node)
    (confirmed candidate : checkpoint) :
  stopped_ n = false ->
  top_confirmed (chain_ n) = Some confirmed ->
  top_candidate (chain_ n) = Some candidate ->
  top_valid_candidate_height (chain_ n) < checkpoint.height candidate ->
  checkpoint.height candidate < SizeT.modulus ->
  exists hash,
    In (hash, top_valid_candidate_height (chain_ n) + 1)
      (pushed_front (trace (run uninitialized n)))
    /\ reservations.front (reservations_ (final (run uninitialized n)))
       = Some (hash, top_valid_candidate_height (chain_ n) + 1).
Proof.
  intros Hrun Hconfirmed Hcandidate Habove Hsize.
  destruct (run_found_tops_observed uninitialized n confirmed candidate
              Hrun Hconfirmed Hcandidate) as [_ [Hp Hf]].
  cbv zeta in Hp, Hf. rewrite Hp, Hf. clear Hp Hf.
  set (top_valid := top_valid_candidate_height (chain_ n)) in *.
  destruct (seed_reservations_run top_valid (SizeT.add top_valid 1)
              _ (checkpoint.height candidate) uninitialized
              (with_tops confirmed candidate n) Hsize eq_refl)
    as [_ [Hpushed [_ Hfinal]]].
  cbv zeta in Hpushed, Hfinal. rewrite Hfinal.
  remember (pushed_front (trace (seed_reservations top_valid
              (SizeT.add top_valid 1) (checkpoint.height candidate)
              uninitialized (with_tops confirmed candidate n))))
    as pushed eqn:Hdef.
  clear Hdef Hfinal.
  destruct (N.to_nat (checkpoint.height candidate - top_valid))
    as [| count] eqn:Hcount; [lia |].
  destruct (count_down_last top_valid count) as [before Hlast].
  rewrite Hlast, filter_app in Hpushed. cbn [filter] in Hpushed.
  rewrite add_small, N.eqb_refl, orb_true_r in Hpushed by lia.
  apply map_eq_app in Hpushed.
  destruct Hpushed as [front [back [Hsplit [_ Hback]]]].
  destruct back as [| [hash h] [| ? ?]]; try discriminate Hback.
  cbn in Hback. injection Hback as Hh. subst h pushed.
  exists hash. split.
  - apply in_or_app. right. left. reflexivity.
  - rewrite rev_app_distr. reflexivity.
Qed.

Lemma run_seeds_start_height_witness :
  exists hash,
    In (hash, 3 + 1) (pushed_front (trace (run 999 sample_node)))
    /\ reservations.front (reservations_ (final (run 999 sample_node)))
       = Some (hash, 3 + 1).
Proof.
  apply (run_seeds_start_height 999 sample_node (checkpoint.make 100 3)
           (checkpoint.make 107 7) eq_refl eq_refl eq_refl eq_refl eq_refl).
Defined.

(** A failed [get_top] shows in the trace of [run] only when the node is
    running and one of the two tops is missing. *)
Lemma run_get_top_failed (uninitialized : hash_digest) (n : full_node)
    (candidate : bool) :
  In (chain_get_top_called candidate false) (trace (run uninitialized n)) ->
  stopped_ n = false
  /\ (top_confirmed (chain_ n) = None
      \/ exists confirmed,
           top_confirmed (chain_ n) = Some confirmed
           /\ top_candidate (chain_ n) = None).
Proof.
  intros Hin.
  destruct (stopped_ n) eqn:Hstopped.
  - exfalso. unfold run in Hin. step. rewrite Hstopped in Hin.
    cbn in Hin. destruct Hin as [Hin | []]. discriminate Hin.
  - split; [reflexivity |].
    destruct (top_confirmed (chain_ n)) as [confirmed |] eqn:Hconfirmed;
      [| left; reflexivity].
    right. exists confirmed. split; [reflexivity |].
    destruct (top_candidate (chain_ n)) as [top |] eqn:Hcandidate;
      [| reflexivity].
    exfalso.
    rewrite (run_found_tops uninitialized n confirmed top
               Hstopped Hconfirmed Hcandidate) in Hin.
    cbv zeta in Hin. unfold trace at 1 in Hin. cbn [fst snd] in Hin.
    apply in_app_or in Hin. destruct Hin as [Hin | Hin].
    + cbn in Hin. intuition discriminate.
    + apply in_app_or in Hin. destruct Hin as [Hin | Hin].
      * destruct (seed_reservations_frame
                    (top_valid_candidate_height (chain_ n))
                    (SizeT.add (top_valid_candidate_height (chain_ n)) 1)
                    _ (checkpoint.height top) uninitialized
                    (with_tops confirmed top n) (le_n _)) as [_ Hevents].
        rewrite forallb_forall in Hevents.
        apply Hevents in Hin. discriminate Hin.
      * cbn in Hin. intuition discriminate.
Qed.

(** C4.  When a [get_top] call of [run] fails, the handler is invoked once,
    with [operation_failed]; the trace has no subscription and no call of
    the network's [run]; the reservations are as before. *)
Theorem run_corrupt_chain (uninitialized : hash_digest) (n : full_node)
    (candidate : bool) :
  In (chain_get_top_called candidate false) (trace (run uninitialized n)) ->
  handler_codes (trace (run uninitialized n)) = [operation_failed]
  /\ ~ In chain_subscribe_headers_called (trace (run uninitialized n))
  /\ ~ In chain_subscribe_blocks_called (trace (run uninitialized n))
  /\ ~ In p2p_run_called (trace (run uninitialized n))
  /\ reservations_ (final (run uninitialized n)) = reservations_ n.
Proof.
  intros Hin.
  destruct (run_get_top_failed uninitialized n candidate Hin)
    as [Hstopped [Hconfirmed | [confirmed [Hconfirmed Hcandidate]]]];
    clear Hin; unfold run, handle_running; step;
    repeat (first [rewrite Hstopped | rewrite Hconfirmed
                  | rewrite Hcandidate]; cbn);
    repeat split; try reflexivity; intros Hin; cbn in Hin;
    intuition discriminate.
Qed.

Lemma run_corrupt_chain_witness :
  trace (run 0 corrupt_node) =
    [chain_get_top_called false false;
     log error "The block chain is corrupt." no_arg;
     handler_invoked operation_failed]
  /\ handler_codes (trace (run 0 corrupt_node)) = [operation_failed]
  /\ reservations_ (final (run 0 corrupt_node)) = [(50, 5)].
Proof.
  split; [reflexivity |].
  destruct (run_corrupt_chain 0 corrupt_node false) as [Hcodes [_ [_ [_ Hq]]]].
  - left. reflexivity.
  - split; [exact Hcodes | exact Hq].
Defined.

(** ** Network selection *)

(** C10.  [main] initializes the configuration exactly once, for the network
    the two flags select: mainnet when neither is set, testnet whenever the
    testnet flag is set, regtest when only the regtest flag is set; all five
    settings objects are built for that one network. *)
Theorem initialize_selects_network (configured : configuration.t) :
  let ctx :=
    main.claimed_network (configuration.testnet_flag configured)
      (configuration.regtest_flag configured) in
  main.initialize configured = configuration.init ctx configured
  /\ main.contexts (main.initialize configured) = repeat (Some ctx) 5
  /\ (ctx = configuration.mainnet <->
      configuration.testnet_flag configured = false
      /\ configuration.regtest_flag configured = false)
  /\ (ctx = configuration.testnet <->
      configuration.testnet_flag configured = true)
  /\ (ctx = configuration.regtest <->
      configuration.testnet_flag configured = false
      /\ configuration.regtest_flag configured = true).
Proof.
  cbv zeta. unfold main.initialize, main.claimed_network.
  destruct (configuration.testnet_flag configured),
    (configuration.regtest_flag configured); cbn;
    repeat split; intros; try discriminate; try reflexivity;
    match goal with
    | H : _ /\ _ |- _ => destruct H; discriminate
    end.
Qed.

(** * Further properties of the code *)

(** ** The run sequence, all outcomes *)

Lemma run_running (uninitialized : hash_digest) (n : full_node) :
  stopped_ n = false ->
  run uninitialized n = handle_running uninitialized success n.
Proof.
  intros Hrun. unfold run. unfold bind at 1. unfold p2p.stopped at 1.
  unfold gets at 1. cbv beta iota. rewrite Hrun.
  destruct (handle_running uninitialized success n) as [[[] s] t].
  reflexivity.
Qed.

Lemma handler_codes_seed_events (t : list event) :
  forallb is_seed_event t = true -> handler_codes t = [].
Proof.
  induction t as [| e t IH]; [reflexivity |].
  cbn [forallb]. intros H. apply andb_true_iff in H. destruct H as [He Ht].
  destruct e; try discriminate He; cbn; apply IH, Ht.
Qed.

Lemma handler_codes_app (a b : list event) :
  handler_codes (a ++ b) = handler_codes a ++ handler_codes b.
Proof. apply flat_map_app. Qed.

(** The three ways [run] ends on a node that is not stopped. *)
Lemma run_cases (uninitialized : hash_digest) (n : full_node) :
  stopped_ n = false ->
  (top_confirmed (chain_ n) = None
   /\ run uninitialized n =
        (tt, n,
         [chain_get_top_called false false;
          log error "The block chain is corrupt." no_arg;
          handler_invoked operation_failed]))
  \/ (exists confirmed,
        top_confirmed (chain_ n) = Some confirmed
        /\ top_candidate (chain_ n) = None
        /\ run uninitialized n =
             (tt, with_top_block confirmed n,
              [chain_get_top_called false true;
               log info "Top confirmed block height is ("
                 (arg_number (checkpoint.height confirmed));
               chain_get_top_called true false;
               log error "The candidate chain is corrupt." no_arg;
               handler_invoked operation_failed]))
  \/ (exists confirmed candidate,
        top_confirmed (chain_ n) = Some confirmed
        /\ top_candidate (chain_ n) = Some candidate).
Proof.
  intros Hrun.
  destruct (top_confirmed (chain_ n)) as [confirmed |] eqn:Hconfirmed.
  - destruct (top_candidate (chain_ n)) as [candidate |] eqn:Hcandidate.
    + right. right. exists confirmed, candidate. split; reflexivity.
    + right. left. exists confirmed. repeat split.
      unfold run, handle_running. step.
      repeat (first [rewrite Hrun | rewrite Hconfirmed
                    | rewrite Hcandidate]; cbn).
      reflexivity.
  - left. split; [reflexivity |].
    unfold run, handle_running. step.
    repeat (first [rewrite Hrun | rewrite Hconfirmed]; cbn).
    reflexivity.
Qed.

(** X1.  [handle_running], and with it [run], invokes the handler exactly
    once whatever the node, the chain and the code are.  On a stopped node
    the code is [service_stopped] and nothing else happens; an error code
    given to [handle_running] on a running node is logged and passed on
    unchanged, without any call to the chain. *)
Theorem run_reports_exactly_once (uninitialized : hash_digest) (ec : code)
    (n : full_node) :
  List.length (handler_codes (trace (handle_running uninitialized ec n)))
    = 1%nat
  /\ List.length (handler_codes (trace (run uninitialized n))) = 1%nat
  /\ (stopped_ n = true ->
      handle_running uninitialized ec n
        = (tt, n, [handler_invoked service_stopped])
      /\ run uninitialized n = (tt, n, [handler_invoked service_stopped]))
  /\ (stopped_ n = false -> is_error ec = true ->
      handle_running uninitialized ec n
        = (tt, n,
           [log error "Failure synchronizing blocks: " (arg_code ec);
            handler_invoked ec])).
Proof.
  assert (Hsuccess :
    stopped_ n = false ->
    List.length (handler_codes (trace (run uninitialized n))) = 1%nat).
  { intros Hrun.
    destruct (run_cases uninitialized n Hrun)
      as [[_ Heq] | [[confirmed [_ [_ Heq]]]
                    | [confirmed [candidate [Hc1 Hc2]]]]];
      try (rewrite Heq; reflexivity).
    rewrite (run_found_tops uninitialized n confirmed candidate Hrun Hc1 Hc2).
    cbv zeta. unfold trace at 1. cbn [snd].
    rewrite !handler_codes_app.
    destruct (seed_reservations_frame
                (top_valid_candidate_height (chain_ n))
                (SizeT.add (top_valid_candidate_height (chain_ n)) 1)
                _ (checkpoint.height candidate) uninitialized
                (with_tops confirmed candidate n) (le_n _)) as [_ Hevents].
    rewrite (handler_codes_seed_events _ Hevents). reflexivity. }
  destruct (stopped_ n) eqn:Hstopped.
  - assert (Hh : handle_running uninitialized ec n
                 = (tt, n, [handler_invoked service_stopped])).
    { unfold handle_running. step. rewrite Hstopped. reflexivity. }
    assert (Hr : run uninitialized n
                 = (tt, n, [handler_invoked service_stopped])).
    { unfold run. step. rewrite Hstopped. reflexivity. }
    rewrite Hh, Hr. repeat split; intros; discriminate.
  - assert (Herr : is_error ec = true ->
                   handle_running uninitialized ec n
                   = (tt, n,
                      [log error "Failure synchronizing blocks: "
                         (arg_code ec);
                       handler_invoked ec])).
    { intros Hec. unfold handle_running. step. rewrite Hstopped, Hec.
      reflexivity. }
    split; [| split; [apply Hsuccess; reflexivity
                     | split; [intros; discriminate | intros _; exact Herr]]].
    destruct ec as [| | | v];
      try (rewrite Herr by reflexivity; reflexivity).
    rewrite <- run_running by exact Hstopped.
    apply Hsuccess. reflexivity.
Qed.

Lemma run_reports_exactly_once_witness :
  handler_codes (trace (run 999 sample_node)) = [success]
  /\ run 999 (with_stopped true sample_node)
     = (tt, with_stopped true sample_node, [handler_invoked service_stopped])
  /\ handle_running 999 (other_error 7) sample_node
     = (tt, sample_node,
        [log error "Failure synchronizing blocks: " (arg_code (other_error 7));
         handler_invoked (other_error 7)]).
Proof.
  split; [reflexivity |].
  destruct (run_reports_exactly_once 999 (other_error 7)
              (with_stopped true sample_node)) as [_ [_ [Hstopped _]]].
  destruct (run_reports_exactly_once 999 (other_error 7) sample_node)
    as [_ [_ [_ Herror]]].
  split.
  - apply Hstopped. reflexivity.
  - apply Herror; reflexivity.
Defined.

Lemma not_subscription_seed_events (t : list event) :
  forallb is_seed_event t = true ->
  forallb (fun e => negb (is_subscription e)) t = true.
Proof.
  induction t as [| e t IH]; [reflexivity |].
  cbn [forallb]. intros H. apply andb_true_iff in H. destruct H as [He Ht].
  rewrite (IH Ht). destruct e; try discriminate He; reflexivity.
Qed.

(** X2.  A run that finds both tops caches them and leaves the stopped flag
    alone; it registers the header subscription, then the block
    subscription, then hands over to the network's [run], each once and
    only after the whole re-seeding; the pending count it logs just before
    is the size of the queue it leaves. *)
Theorem run_subscribes_after_seeding (uninitialized : hash_digest)
    (n : full_node) (confirmed candidate : checkpoint) :
  stopped_ n = false ->
  top_confirmed (chain_ n) = Some confirmed ->
  top_candidate (chain_ n) = Some candidate ->
  let r := run uninitialized n in
  top_block_ (final r) = confirmed
  /\ top_header_ (final r) = candidate
  /\ stopped_ (final r) = false
  /\ exists before,
       trace r =
         before
           ++ [log info "Pending block downloads ("
                 (arg_number (reservations.size (reservations_ (final r))));
               chain_subscribe_headers_called;
               chain_subscribe_blocks_called;
               p2p_run_called;
               handler_invoked (p2p_run_code (network_ n))]
       /\ forallb (fun e => negb (is_subscription e)) before = true
       /\ pushed_front before = pushed_front (trace r).
Proof.
  intros Hrun Hconfirmed Hcandidate. cbv zeta.
  rewrite (run_found_tops uninitialized n confirmed candidate
             Hrun Hconfirmed Hcandidate).
  cbv zeta.
  destruct (seed_reservations_frame
              (top_valid_candidate_height (chain_ n))
              (SizeT.add (top_valid_candidate_height (chain_ n)) 1)
              _ (checkpoint.height candidate) uninitialized
              (with_tops confirmed candidate n) (le_n _))
    as [[q Hframe] Hevents].
  remember (seed_reservations _ _ _ _ _) as seeded eqn:Hseeded.
  unfold final, trace in *. cbn [fst snd] in *.
  rewrite Hframe. cbn [top_block_ top_header_ stopped_ with_reservations
                       with_tops with_top_header with_top_block].
  repeat split; try assumption.
  eexists. split; [| split].
  - rewrite app_assoc. reflexivity.
  - rewrite forallb_app, (not_subscription_seed_events _ Hevents).
    reflexivity.
  - unfold pushed_front. rewrite !flat_map_app. cbn [flat_map app].
    rewrite !app_nil_r. reflexivity.
Qed.

Lemma run_subscribes_after_seeding_witness :
  top_block_ (final (run 999 sample_node)) = checkpoint.make 100 3
  /\ top_header_ (final (run 999 sample_node)) = checkpoint.make 107 7.
Proof.
  destruct (run_subscribes_after_seeding 999 sample_node
              (checkpoint.make 100 3) (checkpoint.make 107 7)
              eq_refl eq_refl eq_refl) as [Hblock [Hheader _]].
  split; [exact Hblock | exact Hheader].
Defined.

(** ** The queue and the hashes the loop pushes *)

(** The loop, from any start height: the queue it leaves is the old one
    with the pushed entries in front, last pushed first, and an entry pushed
    at a downloadable height carries the hash the chain wrote. *)
Lemma seed_reservations_queue (top_valid start_height : N) (count : nat) :
  forall (height : N) (hash : hash_digest) (n : full_node),
    (N.to_nat (height - top_valid) <= count)%nat ->
    let r := seed_reservations top_valid start_height height hash n in
    final r =
      with_reservations (rev (pushed_front (trace r)) ++ reservations_ n) n
    /\ forall pushed h x,
         In (pushed, h) (pushed_front (trace r)) ->
         downloadable (chain_ n) h = Some x -> pushed = x.
Proof.
  induction count as [| count IH]; intros height hash n Hcount; cbv zeta.
  - rewrite seed_reservations_done by lia. unfold final, trace.
    cbn. rewrite with_reservations_same. split; [reflexivity |].
    intros pushed h x [].
  - destruct (N.le_gt_cases height top_valid) as [Hle | Hlt].
    + rewrite seed_reservations_done by lia. unfold final, trace.
      cbn. rewrite with_reservations_same. split; [reflexivity |].
      intros pushed h x [].
    + rewrite (seed_reservations_step _ _ _ _ _ Hlt). cbv zeta.
      assert (Hdecr : SizeT.decr height < height) by (apply decr_lt; lia).
      destruct (is_downloadable (chain_ n) height || (height =? start_height));
        match goal with
        | |- context [seed_reservations _ _ _ ?h ?m] =>
            destruct (IH (SizeT.decr height) h m) as [Hq Hw]; [lia |]
        end;
        unfold final, trace in *; cbn [fst snd] in *;
        rewrite Hq; cbn [app];
        rewrite ?pushed_front_get_downloadable, ?pushed_front_push_front;
        cbn [rev reservations_ with_reservations chain_] in *.
      * split; [rewrite <- app_assoc; reflexivity |].
        intros pushed h x [Hhead | Hin] Hsome.
        -- injection Hhead as Hp Hh. subst h pushed.
           rewrite Hsome. reflexivity.
        -- exact (Hw pushed h x Hin Hsome).
      * split; [reflexivity |]. exact Hw.
Qed.

(** What [run] pushes: nothing, or what its loop pushes. *)
Lemma run_pushed (uninitialized : hash_digest) (n : full_node) :
  (pushed_front (trace (run uninitialized n)) = []
   /\ reservations_ (final (run uninitialized n)) = reservations_ n)
  \/ exists confirmed candidate,
       stopped_ n = false
       /\ top_confirmed (chain_ n) = Some confirmed
       /\ top_candidate (chain_ n) = Some candidate.
Proof.
  destruct (stopped_ n) eqn:Hstopped.
  - left. unfold run. step. rewrite Hstopped. split; reflexivity.
  - destruct (run_cases uninitialized n Hstopped)
      as [[_ Heq] | [[confirmed [_ [_ Heq]]]
                    | [confirmed [candidate [Hc1 Hc2]]]]].
    + left. rewrite Heq. split; reflexivity.
    + left. rewrite Heq. split; reflexivity.
    + right. exists confirmed, candidate. repeat split; assumption.
Qed.

Lemma run_queue_relation (uninitialized : hash_digest) (n : full_node) :
  reservations_ (final (run uninitialized n)) =
    rev (pushed_front (trace (run uninitialized n))) ++ reservations_ n.
Proof.
  destruct (run_pushed uninitialized n)
    as [[Hnone Hsame] | [confirmed [candidate [Hrun [Hc1 Hc2]]]]].
  - rewrite Hnone, Hsame. reflexivity.
  - destruct (run_found_tops_observed uninitialized n confirmed candidate
                Hrun Hc1 Hc2) as [_ [Hp Hf]].
    cbv zeta in Hp, Hf. rewrite Hp, Hf.
    destruct (seed_reservations_queue
                (top_valid_candidate_height (chain_ n))
                (SizeT.add (top_valid_candidate_height (chain_ n)) 1)
                _ (checkpoint.height candidate) uninitialized
                (with_tops confirmed candidate n) (le_n _)) as [Hq _].
    cbv zeta in Hq. rewrite Hq. reflexivity.
Qed.

(** X3.  Whatever the outcome of [run], the queue it leaves is the queue it
    found with the entries it pushed in front of it, the last pushed first;
    nothing that was queued is dropped or reordered. *)
Theorem run_keeps_queue (uninitialized : hash_digest) (n : full_node) :
  reservations_ (final (run uninitialized n)) =
    rev (pushed_front (trace (run uninitialized n))) ++ reservations_ n.
Proof. apply run_queue_relation. Qed.

(** X4.  Whatever the outcome of [run], a reservation pushed at a height
    for which [get_downloadable] returns true carries the hash that call
    wrote. *)
Theorem run_pushes_written_hash (uninitialized : hash_digest) (n : full_node)
    (pushed : hash_digest) (h : N) (x : hash_digest) :
  In (pushed, h) (pushed_front (trace (run uninitialized n))) ->
  downloadable (chain_ n) h = Some x ->
  pushed = x.
Proof.
  intros Hin Hsome.
  destruct (run_pushed uninitialized n)
    as [[Hnone _] | [confirmed [candidate [Hrun [Hc1 Hc2]]]]].
  - rewrite Hnone in Hin. destruct Hin.
  - destruct (run_found_tops_observed uninitialized n confirmed candidate
                Hrun Hc1 Hc2) as [_ [Hp _]].
    cbv zeta in Hp. rewrite Hp in Hin.
    destruct (seed_reservations_queue
                (top_valid_candidate_height (chain_ n))
                (SizeT.add (top_valid_candidate_height (chain_ n)) 1)
                _ (checkpoint.height candidate) uninitialized
                (with_tops confirmed candidate n) (le_n _)) as [_ Hw].
    exact (Hw pushed h x Hin Hsome).
Qed.

Lemma run_pushes_written_hash_witness :
  In (107, 7) (pushed_front (trace (run 999 sample_node)))
  /\ downloadable (chain_ sample_node) 7 = Some 107
  /\ 107 = 107.
Proof.
  assert (Hin : In (107, 7) (pushed_front (trace (run 999 sample_node))))
    by (left; reflexivity).
  split; [exact Hin | split; [reflexivity |]].
  exact (run_pushes_written_hash 999 sample_node 107 7 107 Hin eq_refl).
Defined.

Lemma count_down_filter_descending (P : N -> bool) (lo : N) (count : nat) :
  StronglySorted (fun a b => b < a) (filter P (count_down lo count)).
Proof.
  induction count as [| count IH]; [constructor |].
  cbn [count_down filter].
  destruct (P (lo + N.of_nat (S count))); [| exact IH].
  constructor; [exact IH |].
  apply Forall_forall. intros h Hin.
  apply filter_In in Hin. destruct Hin as [Hin _].
  apply In_count_down in Hin. lia.
Qed.

Lemma descending_rev_ascending (l : list N) :
  StronglySorted (fun a b => b < a) l -> StronglySorted N.lt (rev l).
Proof.
  induction 1 as [| x l Hsorted IH Hall]; [constructor |].
  cbn [rev]. revert IH.
  assert (Hrev : Forall (fun y => y < x) (rev l)).
  { apply Forall_forall. intros y Hy. apply in_rev in Hy.
    rewrite Forall_forall in Hall. exact (Hall y Hy). }
  clear Hall Hsorted. induction (rev l) as [| y r IHr]; intros Hs.
  - repeat constructor.
  - cbn [app]. inversion Hs as [| ? ? Hs' Hy]; subst.
    inversion Hrev as [| ? ? Hyx Hrest]; subst.
    constructor; [exact (IHr Hrest Hs') |].
    apply Forall_app. split; [exact Hy | repeat constructor; exact Hyx].
Qed.

(** X5.  A run that finds both tops (the candidate height being a [size_t]
    value) leaves the new reservations in front of the old queue in
    strictly ascending height order, all within
    [top_valid + 1 .. candidate]: the lowest missing height is served
    first. *)
Theorem run_seeds_ascending (uninitialized : hash_digest) (n : full_node)
    (confirmed candidate : checkpoint) :
  stopped_ n = false ->
  top_confirmed (chain_ n) = Some confirmed ->
  top_candidate (chain_ n) = Some candidate ->
  checkpoint.height candidate < SizeT.modulus ->
  exists seeded,
    reservations_ (final (run uninitialized n)) = seeded ++ reservations_ n
    /\ StronglySorted N.lt (map snd seeded)
    /\ Forall (fun h => top_valid_candidate_height (chain_ n) < h
                        <= checkpoint.height candidate) (map snd seeded).
Proof.
  intros Hrun Hc1 Hc2 Hsize.
  exists (rev (pushed_front (trace (run uninitialized n)))).
  split; [apply run_queue_relation |].
  destruct (run_found_tops_observed uninitialized n confirmed candidate
              Hrun Hc1 Hc2) as [_ [Hp _]].
  cbv zeta in Hp. rewrite Hp.
  destruct (seed_reservations_run
              (top_valid_candidate_height (chain_ n))
              (SizeT.add (top_valid_candidate_height (chain_ n)) 1)
              _ (checkpoint.height candidate) uninitialized
              (with_tops confirmed candidate n) Hsize eq_refl)
    as [_ [Hpushed _]].
  cbv zeta in Hpushed. rewrite map_rev, Hpushed.
  split.
  - apply descending_rev_ascending, count_down_filter_descending.
  - apply Forall_forall. intros h Hin. apply in_rev in Hin.
    apply filter_In in Hin. destruct Hin as [Hin _].
    apply In_count_down in Hin. lia.
Qed.

Lemma run_seeds_ascending_witness :
  exists seeded,
    reservations_ (final (run 999 sample_node)) = seeded ++ []
    /\ StronglySorted N.lt (map snd seeded)
    /\ Forall (fun h => 3 < h <= 7) (map snd seeded).
Proof.
  apply (run_seeds_ascending 999 sample_node (checkpoint.make 100 3)
           (checkpoint.make 107 7) eq_refl eq_refl eq_refl eq_refl).
Defined.

(** The loop's pushes as a function of the heights it visits. *)
Lemma seed_reservations_pushes (top_valid start_height : N) (count : nat) :
  forall (height : N) (hash : hash_digest) (n : full_node),
    height < SizeT.modulus ->
    N.to_nat (height - top_valid) = count ->
    pushed_front
      (trace (seed_reservations top_valid start_height height hash n))
    = seed_pushes (chain_ n) start_height hash (count_down top_valid count).
Proof.
  induction count as [| count IH]; intros height hash n Hsize Hcount.
  - rewrite seed_reservations_done by lia. reflexivity.
  - assert (Hlt : top_valid < height) by lia.
    rewrite (seed_reservations_step _ _ _ _ _ Hlt). cbv zeta.
    rewrite decr_small by lia.
    assert (Hheight : top_valid + N.of_nat (S count) = height) by lia.
    cbn [count_down seed_pushes]. rewrite Hheight.
    fold (written (chain_ n) hash height).
    destruct (is_downloadable (chain_ n) height || (height =? start_height));
      unfold trace at 1; cbn [snd app];
      rewrite ?pushed_front_get_downloadable, ?pushed_front_push_front;
      rewrite IH by lia; reflexivity.
Qed.

Lemma count_down_shift (lo : N) (count : nat) :
  count_down lo (S count) = count_down (lo + 1) count ++ [lo + 1].
Proof.
  induction count as [| count IH]; [reflexivity |].
  change (count_down lo (S (S count)))
    with ((lo + N.of_nat (S (S count))) :: count_down lo (S count)).
  rewrite IH. cbn [count_down app]. f_equal. lia.
Qed.

Lemma seed_pushes_app (c : block_chain) (start_height : N)
    (hash : hash_digest) (a b : list N) :
  seed_pushes c start_height hash (a ++ b) =
    seed_pushes c start_height hash a
      ++ seed_pushes c start_height (fold_left (written c) a hash) b.
Proof.
  revert hash. induction a as [| h a IH]; intros hash; [reflexivity |].
  cbn [app seed_pushes fold_left]. rewrite IH, app_assoc. reflexivity.
Qed.

Lemma written_downloadable (c : block_chain) (a b : hash_digest) (h : N) :
  is_downloadable c h = true -> written c a h = written c b h.
Proof.
  unfold is_downloadable, written.
  destruct (downloadable c h); [reflexivity | discriminate].
Qed.

Lemma written_not_downloadable (c : block_chain) (a : hash_digest) (h : N) :
  is_downloadable c h = false -> written c a h = a.
Proof.
  unfold is_downloadable, written.
  destruct (downloadable c h); [discriminate | reflexivity].
Qed.

(** After a sweep the local holds the hash of the last downloadable height
    visited, or what it held before. *)
Lemma fold_written (c : block_chain) (hash : hash_digest) (l : list N) :
  fold_left (written c) l hash =
    match find (is_downloadable c) (rev l) with
    | Some h => written c hash h
    | None => hash
    end.
Proof.
  induction l as [| x l IH] using rev_ind; [reflexivity |].
  rewrite fold_left_app, rev_app_distr. cbn [fold_left rev app find].
  destruct (is_downloadable c x) eqn:Hx.
  - apply written_downloadable, Hx.
  - rewrite written_not_downloadable by exact Hx. exact IH.
Qed.

(** X6.  When the height just above the last valid one is not downloadable,
    the reservation [run] pushes for it carries whatever the local [hash]
    holds at that point: the hash of the lowest downloadable height above
    it, or the local's uninitialized content when no height up to the
    candidate top is downloadable. *)
Theorem run_pushes_stale_hash (uninitialized : hash_digest) (n : full_node)
    (confirmed candidate : checkpoint) :
  stopped_ n = false ->
  top_confirmed (chain_ n) = Some confirmed ->
  top_candidate (chain_ n) = Some candidate ->
  top_valid_candidate_height (chain_ n) < checkpoint.height candidate ->
  checkpoint.height candidate < SizeT.modulus ->
  downloadable (chain_ n) (top_valid_candidate_height (chain_ n) + 1) = None ->
  In (stale_hash (chain_ n) uninitialized
        (top_valid_candidate_height (chain_ n)) (checkpoint.height candidate),
      top_valid_candidate_height (chain_ n) + 1)
    (pushed_front (trace (run uninitialized n))).
Proof.
  intros Hrun Hc1 Hc2 Habove Hsize Hnone.
  destruct (run_found_tops_observed uninitialized n confirmed candidate
              Hrun Hc1 Hc2) as [_ [Hp _]].
  cbv zeta in Hp. rewrite Hp. clear Hp.
  set (top_valid := top_valid_candidate_height (chain_ n)) in *.
  rewrite (seed_reservations_pushes top_valid (SizeT.add top_valid 1)
             _ (checkpoint.height candidate) uninitialized
             (with_tops confirmed candidate n) Hsize eq_refl).
  change (chain_ (with_tops confirmed candidate n)) with (chain_ n).
  unfold stale_hash, lowest_downloadable.
  assert (Hcount : N.to_nat (checkpoint.height candidate - top_valid)
                   = S (N.to_nat (checkpoint.height candidate
                                  - (top_valid + 1)))) by lia.
  rewrite Hcount, count_down_shift, seed_pushes_app.
  apply in_or_app. right.
  cbn [seed_pushes]. rewrite add_small, N.eqb_refl, orb_true_r by lia.
  left. rewrite fold_written.
  rewrite written_not_downloadable
    by (unfold is_downloadable; rewrite Hnone; reflexivity).
  reflexivity.
Qed.

Lemma run_pushes_stale_hash_witness :
  In (999, 4)
    (pushed_front
       (trace (run 999 validated_node)))
  /\ In (105, 4) (pushed_front (trace (run 999 sample_node))).
Proof.
  split.
  - apply (run_pushes_stale_hash 999 validated_node
             (checkpoint.make 100 3) (checkpoint.make 107 7)
             eq_refl eq_refl eq_refl eq_refl eq_refl eq_refl).
  - apply (run_pushes_stale_hash 999 sample_node
             (checkpoint.make 100 3) (checkpoint.make 107 7)
             eq_refl eq_refl eq_refl eq_refl eq_refl eq_refl).
Defined.

(** ** The reorganization handlers, all inputs *)

Lemma no_calls_in_stop (n : full_node) :
  forallb (fun e => negb (is_reservations_call e)) (trace (stop n)) = true.
Proof.
  rewrite stop_run. unfold trace. cbn [snd].
  destruct (p2p_stop_result (network_ n)), (chain_stop_result (chain_ n));
    reflexivity.
Qed.

(** With an error code a header handler ends in one of two ways. *)
Lemma handlers_error_runs (n : full_node) (ec : code) (fork_height : N)
    (incoming : option (list header)) (outgoing : list header) :
  is_error ec = true ->
  handle_reindexed ec fork_height incoming outgoing n = (false, n, [])
  \/ handle_reindexed ec fork_height incoming outgoing n
     = (false, final (stop n),
        log error "Failure handling reindex: " (arg_code ec)
          :: trace (stop n)).
Proof.
  intros Hec.
  rewrite !(stop_run n). unfold result, final, trace. cbn [fst snd].
  unfold handle_reindexed, stop. step.
  destruct (stopped_ n); cbn; [left; reflexivity |].
  destruct ec as [| | | v]; try discriminate Hec; cbn;
    destruct (p2p_stop_result (network_ n)),
      (chain_stop_result (chain_ n)); cbn;
    first [left; reflexivity | right; reflexivity].
Qed.

(** The ways [handle_reindexed] ends. *)
Lemma handle_reindexed_cases (ec : code) (fork_height : N)
    (incoming : option (list header)) (outgoing : list header)
    (n : full_node) :
  handle_reindexed ec fork_height incoming outgoing n = (false, n, [])
  \/ handle_reindexed ec fork_height incoming outgoing n
     = (false, final (stop n),
        log error "Failure handling reindex: " (arg_code ec)
          :: trace (stop n))
  \/ ((incoming = None \/ incoming = Some [])
      /\ stopped_ n = false /\ ec = success
      /\ handle_reindexed ec fork_height incoming outgoing n = (true, n, []))
  \/ exists first rest q,
       incoming = Some (first :: rest)
       /\ stopped_ n = false /\ ec = success
       /\ handle_reindexed ec fork_height incoming outgoing n
          = (true,
             with_top_header
               (checkpoint.make (header_hash (back first rest))
                  (SizeT.add fork_height
                     (N.of_nat (List.length (first :: rest)))))
               (with_reservations q n),
             map pop_call (rev (at_heights fork_height outgoing))
               ++ map push_call (at_heights fork_height (first :: rest))).
Proof.
  destruct (is_error ec) eqn:Hec.
  - destruct (handlers_error_runs n ec fork_height incoming outgoing Hec)
      as [H | H]; [left | right; left]; exact H.
  - destruct ec; try discriminate Hec.
    destruct (stopped_ n) eqn:Hstopped.
    + left. unfold handle_reindexed. step. rewrite Hstopped. reflexivity.
    + right. right.
      destruct incoming as [[| first rest] |].
      * left. repeat split; [right; reflexivity |].
        unfold handle_reindexed. step. rewrite Hstopped. reflexivity.
      * right.
        destruct (pop_outgoing_run fork_height outgoing n) as [q Hpop].
        exists first, rest.
        eexists. repeat split.
        unfold handle_reindexed.
        rewrite bind_run. unfold p2p.stopped, gets, result, final, trace.
        cbn [fst snd]. rewrite Hstopped. cbn [orb code_eqb is_error app].
        rewrite bind_run, Hpop. unfold result, final, trace. cbn [fst snd].
        rewrite bind_run, push_incoming_run.
        unfold result, final, trace. cbn [fst snd].
        unfold p2p.set_top_header, bind, modify, ret.
        cbn [fst snd reservations_ with_reservations].
        rewrite app_nil_r, N.add_0_l.
        fold (at_heights fork_height (first :: rest)).
        reflexivity.
      * left. repeat split; [left; reflexivity |].
        unfold handle_reindexed. step. rewrite Hstopped. reflexivity.
Qed.

Lemma only_calls_in_pops (l : list (header * N)) :
  forallb is_reservations_call (map pop_call l) = true.
Proof. induction l as [| p l IH]; [reflexivity | exact IH]. Qed.

Lemma only_calls_in_pushes (l : list (header * N)) :
  forallb is_reservations_call (map push_call l) = true.
Proof. induction l as [| p l IH]; [reflexivity | exact IH]. Qed.

(** X7.  [handle_reindexed] never touches the cached confirmed top.
    Whenever it unsubscribes (returns false), and whenever [incoming] is
    null or empty, it makes no call to the reservations and leaves the
    queue and the cached candidate top as they were: outgoing headers alone
    are never popped.  Whenever it stays subscribed the stopped flag is
    unchanged and every call it made is a call to the reservations: it
    neither logs nor stops anything. *)
Theorem handle_reindexed_frame (ec : code) (fork_height : N)
    (incoming : option (list header)) (outgoing : list header)
    (n : full_node) :
  let r := handle_reindexed ec fork_height incoming outgoing n in
  top_block_ (final r) = top_block_ n
  /\ (result r = false \/ incoming = None \/ incoming = Some [] ->
      reservations_ (final r) = reservations_ n
      /\ top_header_ (final r) = top_header_ n
      /\ forallb (fun e => negb (is_reservations_call e)) (trace r) = true)
  /\ (result r = true ->
      stopped_ (final r) = stopped_ n
      /\ forallb is_reservations_call (trace r) = true).
Proof.
  cbv zeta.
  destruct (handle_reindexed_cases ec fork_height incoming outgoing n)
    as [Heq | [Heq | [[Hempty [_ [_ Heq]]]
                     | [first [rest [q [Hinc [_ [_ Heq]]]]]]]]];
    rewrite Heq; unfold result, final, trace; cbn [fst snd].
  - repeat split; discriminate.
  - pose proof (no_calls_in_stop n) as Hcalls.
    rewrite stop_run in *. unfold trace in Hcalls. cbn [fst snd] in *.
    repeat split; try discriminate.
    cbn [forallb is_reservations_call negb andb]. exact Hcalls.
  - repeat split.
  - split; [reflexivity |]. split.
    + intros [Hf | [Hn | Hn]]; congruence.
    + intros _. split; [reflexivity |].
      rewrite forallb_app, only_calls_in_pops, only_calls_in_pushes.
      reflexivity.
Qed.

Lemma handle_reindexed_frame_witness :
  reservations_
    (final (handle_reindexed success 100 (Some []) [Header 50]
              (with_reservations [(50, 101)] sample_node)))
  = [(50, 101)].
Proof.
  destruct (handle_reindexed_frame success 100 (Some []) [Header 50]
              (with_reservations [(50, 101)] sample_node))
    as [_ [Hsame _]].
  destruct Hsame as [Hq _]; [right; right; reflexivity |].
  exact Hq.
Defined.

(** The ways [handle_reorganized] ends. *)
Lemma handle_reorganized_cases (ec : code) (fork_height : N)
    (incoming : option (list block)) (outgoing : list block)
    (n : full_node) :
  handle_reorganized ec fork_height incoming outgoing n = (false, n, [])
  \/ handle_reorganized ec fork_height incoming outgoing n
     = (false, with_stopped true n,
        log error "Failure handling reorganization: " (arg_code ec)
          :: trace (stop n))
  \/ handle_reorganized ec fork_height incoming outgoing n = (true, n, [])
  \/ exists top,
       handle_reorganized ec fork_height incoming outgoing n
       = (true, with_top_block top n, map moved_to_pool outgoing).
Proof.
  destruct (stopped_ n) eqn:Hstopped.
  - left. unfold handle_reorganized. step. rewrite Hstopped. reflexivity.
  - destruct ec as [| | | v].
    + right. right.
      unfold handle_reorganized.
      rewrite bind_run. unfold p2p.stopped, gets, result, final, trace.
      cbn [fst snd]. rewrite Hstopped. cbn [orb code_eqb is_error app].
      destruct incoming as [[| first rest] |]; cbn [ret];
        try (left; reflexivity).
      right. eexists.
      rewrite bind_run, log_outgoing_run.
      unfold result, final, trace. cbn [fst snd].
      unfold p2p.set_top_block, bind, modify, ret. cbn [fst snd].
      rewrite app_nil_r. reflexivity.
    + left. unfold handle_reorganized. step. rewrite Hstopped. reflexivity.
    + right. left. rewrite (stop_run n). unfold trace. cbn [snd].
      unfold handle_reorganized, stop. step. rewrite Hstopped. cbn.
      destruct (p2p_stop_result (network_ n)),
        (chain_stop_result (chain_ n)); reflexivity.
    + right. left. rewrite (stop_run n). unfold trace. cbn [snd].
      unfold handle_reorganized, stop. step. rewrite Hstopped. cbn.
      destruct (p2p_stop_result (network_ n)),
        (chain_stop_result (chain_ n)); reflexivity.
Qed.

Lemma no_calls_in_moved_to_pool (outgoing : list block) :
  forallb (fun e => negb (is_reservations_call e))
    (map moved_to_pool outgoing) = true.
Proof. induction outgoing as [| b l IH]; [reflexivity | exact IH]. Qed.

Lemma only_debug_in_moved_to_pool (outgoing : list block) :
  forallb is_debug_log (map moved_to_pool outgoing) = true.
Proof. induction outgoing as [| b l IH]; [reflexivity | exact IH]. Qed.

(** X8.  Whatever the code, the lists and the state of the node,
    [handle_reorganized] makes no call to the reservations and leaves the
    queue and the cached candidate top as they were.  When it unsubscribes
    the cached confirmed top is unchanged too; when it stays subscribed the
    stopped flag is unchanged and it did nothing visible besides debug
    logging. *)
Theorem handle_reorganized_frame (ec : code) (fork_height : N)
    (incoming : option (list block)) (outgoing : list block)
    (n : full_node) :
  let r := handle_reorganized ec fork_height incoming outgoing n in
  reservations_ (final r) = reservations_ n
  /\ top_header_ (final r) = top_header_ n
  /\ forallb (fun e => negb (is_reservations_call e)) (trace r) = true
  /\ (result r = false -> top_block_ (final r) = top_block_ n)
  /\ (result r = true ->
      stopped_ (final r) = stopped_ n
      /\ forallb is_debug_log (trace r) = true).
Proof.
  cbv zeta.
  destruct (handle_reorganized_cases ec fork_height incoming outgoing n)
    as [Heq | [Heq | [Heq | [top Heq]]]];
    rewrite Heq; unfold result, final, trace; cbn [fst snd].
  - repeat split; discriminate.
  - pose proof (no_calls_in_stop n) as Hcalls. unfold trace in *.
    repeat split; try discriminate.
    cbn [forallb is_reservations_call negb andb]. exact Hcalls.
  - repeat split.
  - pose proof (no_calls_in_moved_to_pool outgoing) as Hcalls.
    pose proof (only_debug_in_moved_to_pool outgoing) as Hdebug.
    repeat split; try discriminate; assumption.
Qed.

Lemma handle_reorganized_frame_witness :
  top_block_
    (final (handle_reorganized (other_error 3) 100
              (Some [Block (Header 1101)]) [] sample_node))
  = checkpoint.make 0 0.
Proof.
  destruct (handle_reorganized_frame (other_error 3) 100
              (Some [Block (Header 1101)]) [] sample_node)
    as [_ [_ [_ [Htop _]]]].
  rewrite Htop; reflexivity.
Defined.

(** ** Reorganizations against a queue that holds the outgoing branch *)

Lemma pop_back_tail (hd : header) (h : N) (q : reservations.t) :
  reservations.pop_back hd h (q ++ [(header_hash hd, h)]) = q.
Proof.
  unfold reservations.pop_back, reservations.entry_eqb.
  rewrite rev_app_distr. cbn [rev app fst snd].
  rewrite !N.eqb_refl. cbn [andb]. apply rev_involutive.
Qed.

Lemma entries_snoc (l : list (header * N)) (p : header * N) :
  entries (l ++ [p]) = entries l ++ [(header_hash (fst p), snd p)].
Proof. unfold entries. rewrite map_app. reflexivity. Qed.

(** When the tail of the queue is the outgoing branch, the pop loop removes
    exactly that branch. *)
Lemma pop_outgoing_matching (fork : N) (outgoing : list header) :
  forall (base : reservations.t) (n : full_node),
    reservations_ n = base ++ entries (at_heights fork outgoing) ->
    final (pop_outgoing (rev outgoing)
             (SizeT.add fork (N.of_nat (List.length outgoing))) n)
    = with_reservations base n.
Proof.
  induction outgoing as [| x l IH] using rev_ind; intros base n Hq.
  - cbn in *. rewrite app_nil_r in Hq. rewrite <- Hq.
    symmetry. apply with_reservations_same.
  - rewrite rev_app_distr, length_app.
    cbn [rev app List.length pop_outgoing].
    rewrite bind_run.
    replace (N.of_nat (List.length l + 1)) with (N.of_nat (List.length l) + 1)
      by lia.
    rewrite decr_add, reservations_pop_back_run.
    unfold final at 1 2. cbn [fst snd].
    rewrite Hq, at_heights_snoc, entries_snoc, app_assoc. cbn [fst snd].
    rewrite pop_back_tail.
    rewrite (IH base); [reflexivity | reflexivity].
Qed.

Lemma handle_reindexed_replaces (n : full_node) (fork_height : N)
    (first : header) (rest outgoing : list header) (base : reservations.t) :
  stopped_ n = false ->
  reservations_ n = base ++ entries (at_heights fork_height outgoing) ->
  final (handle_reindexed success fork_height (Some (first :: rest))
           outgoing n)
  = with_top_header
      (checkpoint.make (header_hash (back first rest))
         (SizeT.add fork_height (N.of_nat (List.length (first :: rest)))))
      (with_reservations
         (base ++ entries (at_heights fork_height (first :: rest))) n).
Proof.
  intros Hrun Hq. unfold handle_reindexed.
  rewrite bind_run. unfold p2p.stopped, gets, result, final, trace.
  cbn [fst snd]. rewrite Hrun. cbn [orb code_eqb is_error app].
  destruct (pop_outgoing_run fork_height outgoing n) as [q Hpop].
  pose proof (pop_outgoing_matching fork_height outgoing base n Hq) as Hfinal.
  rewrite Hpop in Hfinal. unfold final in Hfinal. cbn [fst snd] in Hfinal.
  rewrite bind_run, Hpop. unfold result, final, trace. cbn [fst snd].
  rewrite Hfinal.
  rewrite bind_run, push_incoming_run.
  unfold result, final, trace. cbn [fst snd].
  unfold p2p.set_top_header, bind, modify, ret.
  cbn [fst snd reservations_ with_reservations].
  rewrite N.add_0_l. reflexivity.
Qed.

(** X9.  On a running node whose queue ends with the outgoing branch (its
    headers at the heights above the fork), a successful reindex with a
    non-empty [incoming] replaces that branch by the incoming one and keeps
    everything queued before it. *)
Theorem handle_reindexed_replaces_branch (n : full_node) (fork_height : N)
    (first : header) (rest outgoing : list header) (base : reservations.t) :
  stopped_ n = false ->
  reservations_ n = base ++ entries (at_heights fork_height outgoing) ->
  reservations_
    (final (handle_reindexed success fork_height (Some (first :: rest))
              outgoing n))
  = base ++ entries (at_heights fork_height (first :: rest)).
Proof.
  intros Hrun Hq.
  rewrite (handle_reindexed_replaces n fork_height first rest outgoing base
             Hrun Hq).
  reflexivity.
Qed.

Lemma handle_reindexed_replaces_branch_witness :
  reservations_
    (final (handle_reindexed success 198
              (Some [Header 1199; Header 1200; Header 1201])
              [Header 199; Header 200]
              (with_reservations [(198, 198); (199, 199); (200, 200)]
                 sample_node)))
  = [(198, 198); (1199, 199); (1200, 200); (1201, 201)].
Proof.
  apply (handle_reindexed_replaces_branch
           (with_reservations [(198, 198); (199, 199); (200, 200)]
              sample_node)
           198 (Header 1199) [Header 1200; Header 1201]
           [Header 199; Header 200] [(198, 198)] eq_refl eq_refl).
Defined.

(** X10.  Under the same conditions a reindex followed by the opposite
    reindex at the same fork (the two branches exchanged) gives back the
    original queue, and the cached candidate top ends at the last header of
    the restored branch. *)
Theorem handle_reindexed_round_trip (n : full_node) (fork_height : N)
    (first : header) (rest : list header)
    (old_first : header) (old_rest : list header) (base : reservations.t) :
  stopped_ n = false ->
  reservations_ n
    = base ++ entries (at_heights fork_height (old_first :: old_rest)) ->
  let n1 := final (handle_reindexed success fork_height
                     (Some (first :: rest)) (old_first :: old_rest) n) in
  let n2 := final (handle_reindexed success fork_height
                     (Some (old_first :: old_rest)) (first :: rest) n1) in
  reservations_ n2 = reservations_ n
  /\ top_header_ n2
     = checkpoint.make (header_hash (back old_first old_rest))
         (SizeT.add fork_height
            (N.of_nat (List.length (old_first :: old_rest)))).
Proof.
  intros Hrun Hq. cbv zeta.
  rewrite (handle_reindexed_replaces n fork_height first rest
             (old_first :: old_rest) base Hrun Hq).
  rewrite (handle_reindexed_replaces _ fork_height old_first old_rest
             (first :: rest) base); [| exact Hrun | reflexivity].
  rewrite Hq. split; reflexivity.
Qed.

Lemma handle_reindexed_round_trip_witness :
  let n := with_reservations [(198, 198); (199, 199); (200, 200)]
             sample_node in
  let n1 := final (handle_reindexed success 198
                     (Some [Header 1199; Header 1200; Header 1201])
                     [Header 199; Header 200] n) in
  let n2 := final (handle_reindexed success 198
                     (Some [Header 199; Header 200])
                     [Header 1199; Header 1200; Header 1201] n1) in
  reservations_ n2 = [(198, 198); (199, 199); (200, 200)].
Proof.
  cbv zeta.
  apply (handle_reindexed_round_trip
           (with_reservations [(198, 198); (199, 199); (200, 200)]
              sample_node)
           198 (Header 1199) [Header 1200; Header 1201]
           (Header 199) [Header 200] [(198, 198)] eq_refl eq_refl).
Defined.

(** ** The console executor *)

Ltac unfold_executor :=
  unfold executor.invoke, executor.run,
    executor.do_initchain, executor.do_help, executor.do_settings,
    executor.do_version, executor.wait_on_stop, executor.monitor_stop,
    executor.handle_seeded, executor.handle_synchronized, executor.verify,
    executor.initialize_interrupt, executor.initialize_output,
    executor.node_code, executor.node_is_stopped in *;
  unfold bind, ret, emit, gets, modify, when, result, final, trace in *.

(** X11.  With [help], [settings] or [version] set, [invoke] only prints:
    it returns true after a single output, the first of the three that is
    set deciding which, and neither logs, nor touches the disk or a node,
    nor changes the executor; [initchain] is ignored. *)
Theorem invoke_information_only (x : executor.t) :
  let c := executor.metadata_ x in
  executor.help c || executor.settings c || executor.version c = true ->
  executor.invoke x =
    (Some true, x,
     [executor.output
        (if executor.help c then "BN_INFORMATION_MESSAGE"
         else if executor.settings c then "BN_SETTINGS_MESSAGE"
         else "BN_VERSION_MESSAGE")]).
Proof.
  cbv zeta. intros Hset. unfold_executor. cbn.
  destruct (executor.help (executor.metadata_ x));
    [reflexivity |].
  destruct (executor.settings (executor.metadata_ x));
    [reflexivity |].
  destruct (executor.version (executor.metadata_ x));
    [reflexivity | discriminate Hset].
Qed.

Lemma invoke_information_only_witness :
  executor.invoke
    (fresh_executor false
       (executor.Configuration false true true true "" "blockchain" false)
       (executor.Filesystem false 0 false 2 false)
       (executor.P2pNode success success success false))
  = (Some true,
     fresh_executor false
       (executor.Configuration false true true true "" "blockchain" false)
       (executor.Filesystem false 0 false 2 false)
       (executor.P2pNode success success success false),
     [executor.output "BN_SETTINGS_MESSAGE"]).
Proof.
  apply (invoke_information_only
           (fresh_executor false
              (executor.Configuration false true true true "" "blockchain"
                 false)
              (executor.Filesystem false 0 false 2 false)
              (executor.P2pNode success success success false))).
  reflexivity.
Defined.

(** X12.  [do_initchain] succeeds exactly when the directory could be
    created and the database initialization succeeded.  The database is
    initialized only after a successful creation, with the testnet genesis
    exactly when testnet rules are configured; when the creation fails the
    complaint is "exists" exactly for error value 0.  The executor itself is
    unchanged. *)
Theorem do_initchain_outcome (x : executor.t) :
  let r := executor.do_initchain x in
  let created := executor.create_directories_result (executor.disk x) in
  let dir := arg_text (executor.directory (executor.metadata_ x)) in
  final r = x
  /\ result r
     = created && executor.initialize_result (executor.disk x)
  /\ filter is_disk_event (trace r)
     = executor.create_directories_called
         :: (if created
             then [executor.data_base_initialize_called
                     (executor.use_testnet_rules (executor.metadata_ x))]
             else [])
  /\ (created = false ->
      (In (executor.log error "BN_INITCHAIN_EXISTS" [dir]) (trace r) <->
       executor.create_directories_error (executor.disk x) = 0)
      /\ (In (executor.log error "BN_INITCHAIN_NEW"
                [dir;
                 arg_number
                   (executor.create_directories_error (executor.disk x))])
            (trace r) <->
          executor.create_directories_error (executor.disk x) <> 0)).
Proof.
  cbv zeta. unfold_executor. cbn.
  destruct (String.eqb _ _); cbn;
    destruct (executor.create_directories_result (executor.disk x)); cbn;
    (repeat split; try reflexivity; try discriminate);
    unfold executor.directory_exists;
    (destruct (executor.create_directories_error (executor.disk x) =? 0)
       eqn:Hec; [apply N.eqb_eq in Hec | apply N.eqb_neq in Hec]);
    cbn; intros; intuition (try discriminate; try congruence).
Qed.

Lemma do_initchain_outcome_witness :
  result (executor.do_initchain initchain_again) = false
  /\ In (executor.log error "BN_INITCHAIN_EXISTS" [arg_text "blockchain"])
       (trace (executor.do_initchain initchain_again)).
Proof.
  destruct (do_initchain_outcome initchain_again)
    as [_ [Hresult [_ Hlogs]]].
  cbv zeta in Hresult, Hlogs.
  split; [rewrite Hresult; reflexivity |].
  destruct (Hlogs eq_refl) as [Hexists _].
  apply Hexists. reflexivity.
Defined.

(** X13.  When no option is given and the database directory does not
    exist, [invoke] returns false without creating, starting or stopping a
    node and leaves the executor unchanged; the failure is logged (as an
    uninitialized chain for error value 2) and [main] maps the value
    returned to [failure]. *)
Theorem run_without_directory (x : executor.t) :
  let c := executor.metadata_ x in
  executor.help c = false ->
  executor.settings c = false ->
  executor.version c = false ->
  executor.initchain c = false ->
  executor.exists_result (executor.disk x) = false ->
  let r := executor.invoke x in
  result r = Some false
  /\ final r = x
  /\ forallb (fun e => negb (is_node_event e)) (trace r) = true
  /\ option_map main.exit_result (result r) = Some main.failure
  /\ (executor.exists_error (executor.disk x) = executor.directory_not_found ->
      In (executor.log error "BN_UNINITIALIZED_CHAIN"
            [arg_text (executor.directory c)]) (trace r)).
Proof.
  cbv zeta. intros Hhelp Hsettings Hversion Hinit Hexists.
  unfold_executor. cbn.
  rewrite Hhelp, Hsettings, Hversion, Hinit. cbn.
  destruct (String.eqb _ _); cbn; rewrite Hexists; cbn;
    destruct (executor.exists_error (executor.disk x)
              =? executor.directory_not_found) eqn:Hec; cbn;
    (repeat split; try (destruct x; reflexivity));
    intros Hvalue; rewrite Hvalue in Hec; try discriminate Hec;
    intuition.
Qed.

Lemma run_without_directory_witness :
  result (executor.invoke uninitialized_directory) = Some false
  /\ option_map main.exit_result
       (result (executor.invoke uninitialized_directory))
     = Some main.failure.
Proof.
  destruct (run_without_directory uninitialized_directory
              eq_refl eq_refl eq_refl eq_refl eq_refl)
    as [Hresult [_ [_ [Hexit _]]]].
  split; [exact Hresult | exact Hexit].
Defined.





(** X15.  The static stop flag is never cleared: once it is set it is still
    set after the signal handler, after either completion handler and after
    a whole [invoke], whatever the options, the disk and the node answer. *)
Theorem stop_flag_is_never_cleared (x : executor.t) (signal : N)
    (ec : code) :
  executor.stopped_ x = true ->
  executor.stopped_ (final (executor.initialize_interrupt signal x)) = true
  /\ executor.stopped_ (final (executor.handle_seeded ec x)) = true
  /\ executor.stopped_ (final (executor.handle_synchronized ec x)) = true
  /\ executor.stopped_ (final (executor.invoke x)) = true.
Proof.
  intros Hset. unfold_executor. cbn.
  repeat split;
    repeat (cbn; rewrite ?Hset;
            match goal with
            | |- context [if ?b then _ else _] => destruct b
            | |- context [match executor.node_ ?y with _ => _ end] =>
                destruct (executor.node_ y)
            end);
    cbn; rewrite ?Hset; first [reflexivity | exact Hset].
Qed.

Lemma stop_flag_is_never_cleared_witness :
  executor.stopped_
    (final (executor.invoke (executor.with_stopped true failing_run)))
  = true.
Proof.
  apply (stop_flag_is_never_cleared
           (executor.with_stopped true failing_run) 0 success eq_refl).
Defined.



(** X17.  The signal handler re-registers itself for the three signals on
    every call.  The sentinel 0 changes nothing; any other signal leaves
    the stop flag set and changes nothing else, and the stop is logged only
    by the first such signal: once the flag is set, a later signal logs
    nothing and changes nothing. *)
Theorem initialize_interrupt_once (x : executor.t) (signal : N) :
  let r := executor.initialize_interrupt signal x in
  let registrations :=
    [executor.signal_registered "SIGINT";
     executor.signal_registered "SIGTERM";
     executor.signal_registered "SIGABRT"] in
  firstn 3 (trace r) = registrations
  /\ (signal = executor.no_interrupt ->
      r = (tt, x, registrations
                    ++ [executor.log info "BN_NODE_INTERRUPT" []]))
  /\ (signal <> executor.no_interrupt ->
      final r = executor.with_stopped true x
      /\ (executor.stopped_ x = true -> r = (tt, x, registrations))
      /\ (executor.stopped_ x = false ->
          trace r = registrations
                      ++ [executor.log info "BN_NODE_STOPPING"
                            [arg_number signal]])
      /\ forall later, later <> executor.no_interrupt ->
           executor.initialize_interrupt later (final r)
           = (tt, final r, registrations)).
Proof.
  cbv zeta. unfold_executor. unfold executor.no_interrupt. cbn.
  destruct (signal =? 0) eqn:Hsignal; cbn;
    [apply N.eqb_eq in Hsignal | apply N.eqb_neq in Hsignal].
  - repeat split; intros; try reflexivity; contradiction.
  - destruct (executor.stopped_ x) eqn:Hflag; cbn;
      (split; [reflexivity |]);
      (split; [intros; contradiction |]); intros _;
      (split; [destruct x; cbn in *; subst; reflexivity |]);
      (split; [intros; try discriminate; reflexivity |]);
      (split; [intros; try discriminate; reflexivity |]);
      intros later Hlater; apply N.eqb_neq in Hlater; rewrite Hlater; cbn;
      rewrite ?Hflag; reflexivity.
Qed.

Lemma initialize_interrupt_once_witness :
  trace (executor.initialize_interrupt 2 failing_run)
  = [executor.signal_registered "SIGINT";
     executor.signal_registered "SIGTERM";
     executor.signal_registered "SIGABRT";
     executor.log info "BN_NODE_STOPPING" [arg_number 2]]
  /\ executor.initialize_interrupt 15
       (final (executor.initialize_interrupt 2 failing_run))
     = (tt, final (executor.initialize_interrupt 2 failing_run),
        [executor.signal_registered "SIGINT";
         executor.signal_registered "SIGTERM";
         executor.signal_registered "SIGABRT"]).
Proof.
  destruct (initialize_interrupt_once failing_run 2) as [_ [_ Hsignal]].
  cbv zeta in Hsignal.
  destruct Hsignal as [_ [_ [Hfirst Hlater]]]; [discriminate |].
  split.
  - apply Hfirst. reflexivity.
  - apply Hlater. discriminate.
Defined.

(** ** Configuration defaults *)

(** X18.  Whatever the flags, and so whatever network is selected, after
    [main] has initialized the configuration none of its five settings
    pointers is null, the node's defaults are in place (no address index,
    log rotation at 10000000, 100 inbound and 8 outbound connections, 10000
    hosts, services advertising exactly the node-network and witness bits)
    and the six option flags are as the parser left them. *)
Theorem initialize_sets_node_defaults (configured : configuration.t) :
  let c := main.initialize configured in
  ~ In None (main.contexts c)
  /\ option_map configuration.index_addresses (configuration.database c)
     = Some false
  /\ option_map
       (fun s => (configuration.rotation_size s,
                  configuration.inbound_connections s,
                  configuration.outbound_connections s,
                  configuration.host_pool_capacity s))
       (configuration.network c)
     = Some (10000000, 100, 8, 10000)
  /\ (forall bit,
        option_map (fun s => N.testbit (configuration.services s) bit)
          (configuration.network c)
        = Some ((bit =? 0) || (bit =? 3)))
  /\ (configuration.version c, configuration.settings c,
      configuration.help c, configuration.initchain c,
      configuration.regtest_flag c, configuration.testnet_flag c)
     = (configuration.version configured, configuration.settings configured,
        configuration.help configured, configuration.initchain configured,
        configuration.regtest_flag configured,
        configuration.testnet_flag configured).
Proof.
  cbv zeta. unfold main.initialize.
  destruct (configuration.regtest_flag configured) eqn:Hregtest,
    (configuration.testnet_flag configured) eqn:Htestnet; cbn;
    rewrite ?Hregtest, ?Htestnet;
    (repeat split; try reflexivity;
     [intros Hin; intuition discriminate |]);
    intros bit; f_equal;
    change (N.lor configuration.node_network configuration.node_witness)
      with 9;
    destruct bit as [| [p | p |]]; try reflexivity;
    destruct p as [p | p |]; try reflexivity;
    destruct p as [p | p |]; try reflexivity;
    destruct p; reflexivity.
Qed.

(** ** Checkpoints *)

Lemma back_is_last {A : Type} (first : A) (rest : list A) :
  exists before, first :: rest = before ++ [back first rest].
Proof.
  assert (Hne : first :: rest <> []) by discriminate.
  pose proof (app_removelast_last first Hne) as Hsplit.
  rewrite last_cons_back in Hsplit.
  exists (removelast (first :: rest)). exact Hsplit.
Qed.

(** X19.  [minimum_start_height] is 0 without checkpoints and otherwise the
    height of the last configured checkpoint, whatever the order of the
    list; when the checkpoints are in ascending height order no checkpoint
    lies above it. *)
Theorem minimum_start_height_bounds (checkpoints : list checkpoint) :
  (checkpoints = [] -> settings_type.minimum_start_height checkpoints = 0)
  /\ (forall before top,
        checkpoints = before ++ [top] ->
        settings_type.minimum_start_height checkpoints
        = checkpoint.height top)
  /\ (StronglySorted
        (fun a b => checkpoint.height a <= checkpoint.height b) checkpoints ->
      Forall
        (fun c => checkpoint.height c
                  <= settings_type.minimum_start_height checkpoints)
        checkpoints).
Proof.
  destruct checkpoints as [| first rest].
  - repeat split; intros; try reflexivity.
    + destruct before; discriminate.
    + constructor.
  - cbn [settings_type.minimum_start_height].
    destruct (back_is_last first rest) as [front Hsplit].
    split; [discriminate |]. split.
    + intros before top Heq. rewrite Hsplit in Heq.
      apply app_inj_tail in Heq. destruct Heq as [_ Htop].
      rewrite Htop. reflexivity.
    + intros Hsorted. rewrite Hsplit in Hsorted. rewrite Hsplit.
      remember (back first rest) as top eqn:Htop. clear Hsplit Htop.
      apply Forall_app. split; [| repeat constructor; lia].
      induction front as [| c l IH]; [constructor |].
      cbn [app] in Hsorted.
      inversion Hsorted as [| ? ? Hrest Hall]; subst.
      constructor; [| exact (IH Hrest)].
      rewrite Forall_forall in Hall. apply Hall.
      apply in_or_app. right. left. reflexivity.
Qed.

Lemma minimum_start_height_bounds_witness :
  settings_type.minimum_start_height [] = 0
  /\ settings_type.minimum_start_height
       [checkpoint.make 12 250; checkpoint.make 11 100] = 100
  /\ Forall
       (fun c => checkpoint.height c
                 <= settings_type.minimum_start_height
                      [checkpoint.make 11 100; checkpoint.make 12 250])
       [checkpoint.make 11 100; checkpoint.make 12 250].
Proof.
  split; [| split].
  - apply (minimum_start_height_bounds []). reflexivity.
  - destruct (minimum_start_height_bounds
                [checkpoint.make 12 250; checkpoint.make 11 100])
      as [_ [Hlast _]].
    exact (Hlast [checkpoint.make 12 250] (checkpoint.make 11 100) eq_refl).
  - apply (minimum_start_height_bounds
             [checkpoint.make 11 100; checkpoint.make 12 250]).
    repeat constructor; cbn; lia.
Defined.
